(** * A shallow embedding of the Wikidata MCP server (wikidata_api.py,
      server_sse.py, render_server.py) and the properties of its session
      bridge and backend client. *)

From Stdlib Require Import String Ascii List Bool Arith Lia ZArith Permutation.
From Stdlib Require OrderedTypeEx DecimalString.
Import ListNotations.
Open Scope string_scope.
Set Warnings "-register-all".

(** ** Python values and the few built-ins the code uses *)
Module Py.

Definition chr (n : nat) : string := String (ascii_of_nat n) EmptyString.
Definition nl : string := chr 10.
Definition dq_char : ascii := ascii_of_nat 34.   (* double quote *)
Definition sq_char : ascii := ascii_of_nat 39.   (* single quote *)
Definition dq : string := String dq_char EmptyString.
Definition sq : string := String sq_char EmptyString.

(** Python's [sub in s] on two str values. *)
Fixpoint str_in (sub s : string) : bool :=
  prefix sub s || match s with EmptyString => false | String _ s' => str_in sub s' end.

(** Python's [s.count(c)] for a one-character [c]. *)
Fixpoint count_char (c : ascii) (s : string) : nat :=
  match s with
  | EmptyString => 0
  | String c' s' => (if Ascii.eqb c c' then 1 else 0) + count_char c s'
  end.

(** JSON-shaped Python values: what [response.json()] and [json.loads]
    produce and what the tools build as dict literals. *)
Inductive json : Type :=
| JNull
| JBool (b : bool)
| JNum (z : Z)
| JStr (s : string)
| JArr (l : list json)
| JObj (kvs : list (string * json)).

(** A raised Python exception: class name and message. *)
Record exn := Exn { exn_name : string; exn_msg : string }.

Inductive result (A : Type) : Type :=
| Ok (a : A)
| Raise (e : exn).
Arguments Ok {A} a.
Arguments Raise {A} e.

Fixpoint assoc {A} (k : string) (kvs : list (string * A)) : option A :=
  match kvs with
  | [] => None
  | (k', v) :: rest => if String.eqb k k' then Some v else assoc k rest
  end.

Definition is_str (s : string) (j : json) : bool :=
  match j with JStr s' => String.eqb s s' | _ => false end.

(** [needle in container] with a str needle. *)
Definition contains (needle : string) (container : json) : result bool :=
  match container with
  | JObj kvs => Ok (match assoc needle kvs with Some _ => true | None => false end)
  | JArr l => Ok (existsb (is_str needle) l)
  | JStr s => Ok (str_in needle s)
  | _ => Raise (Exn "TypeError" "argument of type is not iterable")
  end.

(** [len(x)]. *)
Definition len (x : json) : result nat :=
  match x with
  | JObj kvs => Ok (length kvs)
  | JArr l => Ok (length l)
  | JStr s => Ok (String.length s)
  | _ => Raise (Exn "TypeError" "object has no len()")
  end.

(** [x[key]] for a dict key or a list index (negative indices count from
    the end). *)
Definition getitem (x : json) (key : json) : result json :=
  match x, key with
  | JObj kvs, JStr k =>
      match assoc k kvs with Some v => Ok v | None => Raise (Exn "KeyError" k) end
  | JObj _, _ => Raise (Exn "KeyError" "")
  | JArr l, JNum z =>
      let i := if (z <? 0)%Z then (Z.of_nat (length l) + z)%Z else z in
      if (i <? 0)%Z then Raise (Exn "IndexError" "list index out of range")
      else match nth_error l (Z.to_nat i) with
           | Some v => Ok v
           | None => Raise (Exn "IndexError" "list index out of range")
           end
  | _, _ => Raise (Exn "TypeError" "object is not subscriptable")
  end.

(** [d.get(k, default)] on a dict. *)
Definition dict_get (x : json) (k : string) (default : json) : result json :=
  match x with
  | JObj kvs => match assoc k kvs with Some v => Ok v | None => Ok default end
  | _ => Raise (Exn "AttributeError" "object has no attribute 'get'")
  end.

(** Python's truth value of a JSON-shaped value ([if x:]). *)
Definition truthy (x : json) : bool :=
  match x with
  | JNull => false
  | JBool b => b
  | JNum z => negb (Z.eqb z 0)
  | JStr s => negb (String.eqb s "")
  | JArr l => match l with [] => false | _ => true end
  | JObj kvs => match kvs with [] => false | _ => true end
  end.

(** [x[:n]]: a prefix of a str or of a list. A dict is indexed with the
    slice object itself, which raises (TypeError, unhashable type, before
    Python 3.12; KeyError from 3.12 on); other values are not
    subscriptable. *)
Definition slice_to (x : json) (n : nat) : result json :=
  match x with
  | JStr s => Ok (JStr (substring 0 n s))
  | JArr l => Ok (JArr (firstn n l))
  | JObj _ => Raise (Exn "TypeError" "unhashable type: 'slice'")
  | _ => Raise (Exn "TypeError" "object is not subscriptable")
  end.

End Py.

Import Py.

(** ** The backend client (wikidata_api.py) *)
Module WikidataApi.

(** An outbound HTTP GET: endpoint URL and query parameters. *)
Record http_request := HttpRequest { url : string; params : list (string * string) }.

(** What the [requests] calls of one [try] block yield: either a
    [RequestException] (raised by [requests.get], [raise_for_status] or
    [response.json()]) or the decoded JSON body. *)
Inductive http_response :=
| HttpRaised (msg : string)
| HttpJson (data : json).

(** The effects the client has: HTTP calls, recorded in the log of the
    requests issued so far, and Python exceptions. *)
Definition M (A : Type) : Type := list http_request -> result A * list http_request.

Definition ret {A} (a : A) : M A := fun n => (Ok a, n).
Definition raise {A} (e : exn) : M A := fun n => (Raise e, n).
Definition bind {A B} (m : M A) (k : A -> M B) : M B :=
  fun n => match m n with
           | (Ok a, n') => k a n'
           | (Raise e, n') => (Raise e, n')
           end.
Definition lift {A} (r : result A) : M A := fun n => (r, n).
(** [try: m except: h] catching every exception. *)
Definition catch {A} (m : M A) (h : exn -> M A) : M A :=
  fun n => match m n with
           | (Ok a, n') => (Ok a, n')
           | (Raise e, n') => h e n'
           end.

Notation "x <- m ;; k" := (bind m (fun x => k))
  (at level 61, m at next level, right associativity).

Definition WIKIDATA_API_URL := "https://www.wikidata.org/w/api.php".
Definition WIKIDATA_SPARQL_ENDPOINT := "https://query.wikidata.org/sparql".

(** The common prefixes of [execute_sparql] and
    [execute_sparql_with_requests]: the triple-quoted literal, its leading
    newline and the eight-space indentation included. *)
Definition prefix_line (s : string) : string := "        " ++ s ++ nl.
Definition sparql_prefixes : string :=
  nl ++ prefix_line "PREFIX wd: <http://www.wikidata.org/entity/>"
     ++ prefix_line "PREFIX wdt: <http://www.wikidata.org/prop/direct/>"
     ++ prefix_line "PREFIX p: <http://www.wikidata.org/prop/>"
     ++ prefix_line "PREFIX ps: <http://www.wikidata.org/prop/statement/>"
     ++ prefix_line "PREFIX wikibase: <http://wikiba.se/ontology#>"
     ++ prefix_line "PREFIX bd: <http://www.bigdata.com/rdf#>"
     ++ "        ".

(** [if not any(prefix in sparql_query for prefix in ["PREFIX", "prefix"])]. *)
Definition full_query (sparql_query : string) : string :=
  if negb (existsb (fun p => str_in p sparql_query) ["PREFIX"; "prefix"])
  then sparql_prefixes ++ sparql_query
  else sparql_query.

(** [hasattr(SPARQLWrapper, 'query')]: both the imported class and the
    fallback class of the module define [query]. *)
Definition sparql_wrapper_has_query : bool := true.

Definition search_entity_request (query : string) : http_request :=
  HttpRequest WIKIDATA_API_URL
    [("action", "wbsearchentities"); ("format", "json"); ("language", "en");
     ("search", query); ("type", "item")].

Definition search_property_request (query : string) : http_request :=
  HttpRequest WIKIDATA_API_URL
    [("action", "wbsearchentities"); ("format", "json"); ("language", "en");
     ("search", query); ("type", "property")].

Section Backend.

(** The remote service: its answer to a request, given how many requests
    were issued before it. *)
Variable backend : nat -> http_request -> http_response.
(** [json.dumps]. *)
Variable json_dumps : json -> string.

Definition http_get (req : http_request) : M http_response :=
  fun log => (Ok (backend (List.length log) req), app log [req]).

Definition search_entity (query : string) : M json :=
  r <- http_get (search_entity_request query) ;;
  match r with
  | HttpRaised m => ret (JStr ("Error searching for entity: " ++ m))
  | HttpJson data =>
      c <- lift (contains "search" data) ;;
      cond <- (if c then
                 s <- lift (getitem data (JStr "search")) ;;
                 l <- lift (len s) ;;
                 ret (Nat.ltb 0 l)
               else ret false) ;;
      if cond then
        s <- lift (getitem data (JStr "search")) ;;
        first <- lift (getitem s (JNum 0)) ;;
        lift (getitem first (JStr "id"))
      else ret (JStr "No entity found")
  end.

Definition get_entity_metadata (entity_id : string) : M json :=
  r <- http_get (HttpRequest WIKIDATA_API_URL
         [("action", "wbgetentities"); ("format", "json"); ("ids", entity_id);
          ("languages", "en"); ("props", "labels|descriptions")]) ;;
  match r with
  | HttpRaised m => ret (JObj [("error", JStr ("Error retrieving entity metadata: " ++ m))])
  | HttpJson data =>
      c <- lift (contains "entities" data) ;;
      cond <- (if c then
                 es <- lift (getitem data (JStr "entities")) ;;
                 lift (contains entity_id es)
               else ret false) ;;
      if cond then
        es <- lift (getitem data (JStr "entities")) ;;
        entity <- lift (getitem es (JStr entity_id)) ;;
        l1 <- lift (dict_get entity "labels" (JObj [])) ;;
        l2 <- lift (dict_get l1 "en" (JObj [])) ;;
        label <- lift (dict_get l2 "value" (JStr "No label found")) ;;
        d1 <- lift (dict_get entity "descriptions" (JObj [])) ;;
        d2 <- lift (dict_get d1 "en" (JObj [])) ;;
        description <- lift (dict_get d2 "value" (JStr "No description found")) ;;
        ret (JObj [("id", JStr entity_id); ("label", label); ("description", description)])
      else ret (JObj [("error", JStr ("Entity " ++ entity_id ++ " not found"))])
  end.

Definition search_property (query : string) : M json :=
  r <- http_get (search_property_request query) ;;
  match r with
  | HttpRaised m => ret (JStr ("Error searching for property: " ++ m))
  | HttpJson data =>
      c <- lift (contains "search" data) ;;
      cond <- (if c then
                 s <- lift (getitem data (JStr "search")) ;;
                 l <- lift (len s) ;;
                 ret (Nat.ltb 0 l)
               else ret false) ;;
      if cond then
        s <- lift (getitem data (JStr "search")) ;;
        first <- lift (getitem s (JNum 0)) ;;
        lift (getitem first (JStr "id"))
      else ret (JStr "No property found")
  end.

(** [results["results"]["bindings"]] serialised with [json.dumps]. *)
Definition dump_bindings (results : json) : M string :=
  rs <- lift (getitem results (JStr "results")) ;;
  b <- lift (getitem rs (JStr "bindings")) ;;
  ret (json_dumps b).

(** [traceback.format_exc()], reduced to the exception line. *)
Definition format_exc (e : exn) : string := exn_name e ++ ": " ++ exn_msg e.

Definition execute_sparql_with_requests (sparql_query : string) : M string :=
  catch
    (let fq := full_query sparql_query in
     r <- http_get (HttpRequest WIKIDATA_SPARQL_ENDPOINT [("query", fq); ("format", "json")]) ;;
     match r with
     | HttpRaised m => raise (Exn "RequestException" m)
     | HttpJson results => dump_bindings results
     end)
    (fun e => ret (json_dumps (JObj
       [("error", JStr ("Error executing query with requests: " ++ exn_msg e));
        ("query", JStr sparql_query);
        ("error_type", JStr (exn_name e));
        ("traceback", JStr (format_exc e))]))).

(** The SPARQLWrapper path sends the augmented query text as its [query]
    parameter; a failure there falls back to the requests path with the
    original text. *)
Definition execute_sparql (sparql_query : string) : M string :=
  if negb sparql_wrapper_has_query then execute_sparql_with_requests sparql_query
  else
    catch
      (let fq := full_query sparql_query in
       r <- http_get (HttpRequest WIKIDATA_SPARQL_ENDPOINT [("query", fq)]) ;;
       match r with
       | HttpRaised m => raise (Exn "SPARQLWrapperException" m)
       | HttpJson results => dump_bindings results
       end)
      (fun _ => execute_sparql_with_requests sparql_query).

End Backend.

(** The f-string of [get_entity_properties], with the indentation of the
    triple-quoted literal. *)
Definition entity_properties_query (entity_id : string) : string :=
  nl ++ "    SELECT ?property ?propertyLabel ?value ?valueLabel" ++ nl
     ++ "    WHERE {" ++ nl
     ++ "      wd:" ++ entity_id ++ " ?p ?statement." ++ nl
     ++ "      ?statement ?ps ?value." ++ nl
     ++ "      " ++ nl
     ++ "      ?property wikibase:claim ?p." ++ nl
     ++ "      ?property wikibase:statementProperty ?ps." ++ nl
     ++ "      " ++ nl
     ++ "      SERVICE wikibase:label { bd:serviceParam wikibase:language "
     ++ dq ++ "en" ++ dq ++ ". }" ++ nl
     ++ "    }" ++ nl
     ++ "    LIMIT 50" ++ nl
     ++ "    ".

Section Properties.

Variable backend : nat -> http_request -> http_response.
Variable json_dumps : json -> string.
(** [json.loads]: [None] for a [JSONDecodeError]. *)
Variable json_loads : string -> option json.

(** [json.loads(execute_sparql(sparql_query))]. *)
Definition get_entity_properties (entity_id : string) : M json :=
  s <- execute_sparql backend json_dumps (entity_properties_query entity_id) ;;
  match json_loads s with
  | Some j => ret j
  | None => raise (Exn "JSONDecodeError" "Expecting value")
  end.

End Properties.

End WikidataApi.

(** ** Dicts keyed by str, as insertion-ordered association lists *)
Module Dict.

(** [d[k] = v]: an existing key keeps its position, a new key goes last. *)
Fixpoint set_item {A} (k : string) (v : A) (d : list (string * A)) : list (string * A) :=
  match d with
  | [] => [(k, v)]
  | (k', v') :: rest => if String.eqb k k' then (k, v) :: rest else (k', v') :: set_item k v rest
  end.

(** [del d[k]]. *)
Fixpoint del_item {A} (k : string) (d : list (string * A)) : list (string * A) :=
  match d with
  | [] => []
  | (k', v') :: rest => if String.eqb k k' then rest else (k', v') :: del_item k rest
  end.

(** [k in d]. *)
Definition mem {A} (k : string) (d : list (string * A)) : bool :=
  match assoc k d with Some _ => true | None => false end.

(** Starlette's [request.query_params]: [.get(k)] returns the last value
    given for [k]; [k in query_params] tests for the key. *)
Definition qp_get (k : string) (qp : list (string * string)) : option string :=
  fold_left (fun acc '(k', v) => if String.eqb k k' then Some v else acc) qp None.
Definition qp_has (k : string) (qp : list (string * string)) : bool :=
  existsb (fun '(k', _) => String.eqb k k') qp.

(** Python's [not session_id] on an [Optional[str]]: [None] and [""]. *)
Definition falsy (o : option string) : bool :=
  match o with None => true | Some s => String.eqb s "" end.

End Dict.

Import Dict.

(** ** server_sse.py *)
Module ServerSse.
Import WikidataApi.

Section Tools.

Variable backend : nat -> http_request -> http_response.
(** [json.dumps] and [json.loads] ([None] for a [JSONDecodeError]). *)
Variable json_dumps : json -> string.
Variable json_loads : string -> option json.
(** [str(x)] of a value that is not a str. *)
Variable py_str_other : json -> string.

Definition py_str (j : json) : string :=
  match j with JStr s => s | _ => py_str_other j end.

Definition error_record (msg : string) : json := JObj [("error", JStr msg)].

(** The [get_wikidata_metadata] tool. *)
Definition get_wikidata_metadata (entity_id : string) : M string :=
  metadata <- get_entity_metadata backend entity_id ;;
  ret (json_dumps metadata).

(** Whether [s.count(c) % 2 == 0] fails, i.e. [not s.count(c) % 2 == 0]. *)
Definition odd_count (c : ascii) (s : string) : bool :=
  negb (Nat.eqb (count_char c s mod 2) 0).

(** The [execute_wikidata_sparql] tool. [execute_sparql] always returns a
    str, so the final [return result] of the source is unreachable. *)
Definition execute_wikidata_sparql (sparql_query : string) : M json :=
  catch
    (if str_in dq sparql_query && odd_count dq_char sparql_query then
       ret (error_record "Unbalanced double quotes in SPARQL query")
     else if str_in sq sparql_query && odd_count sq_char sparql_query then
       ret (error_record "Unbalanced single quotes in SPARQL query")
     else if (str_in "FILTER(" sparql_query && str_in "CONTAINS" sparql_query)
             && (str_in "CONTAINS(str(" sparql_query && str_in (dq ++ ")") sparql_query) then
       ret (error_record "Possible quote issue in CONTAINS. Use single quotes inside double quotes or escape properly.")
     else
       result <- execute_sparql backend json_dumps sparql_query ;;
       match json_loads result with
       | None => ret (JObj [("result", JStr result)])
       | Some result_dict =>
           let has_error :=
             match result_dict with JObj kvs => mem "error" kvs | _ => false end in
           if has_error then
             error_msg <- lift (dict_get result_dict "error" (JStr "Unknown error")) ;;
             error_type <- lift (dict_get result_dict "error_type" (JStr "Unknown error type")) ;;
             query <- lift (dict_get result_dict "query" (JStr "Query not available")) ;;
             ret (JObj [("error", error_msg);
                        ("details", JStr ("Error Type: " ++ py_str error_type ++ nl
                                          ++ "Query: " ++ py_str query));
                        ("suggestion", JStr "Try simplifying your query or check for syntax errors.")])
           else ret result_dict
       end)
    (fun e =>
       let error_message := exn_msg e in
       if str_in "Lexical error" error_message && str_in "Encountered: " error_message then
         ret (error_record ("SPARQL syntax error: " ++ error_message
                            ++ ". Check for unescaped quotes or special characters."))
       else ret (error_record ("Error executing SPARQL query: " ++ error_message))).

(** The [get_wikidata_properties] tool. *)
Definition get_wikidata_properties (entity_id : string) : M string :=
  properties <- get_entity_properties backend json_dumps json_loads entity_id ;;
  ret (json_dumps properties).

(** The two f-strings of [find_entity_facts]. *)
Definition property_facts_query (entity_id property_id : string) : string :=
  nl ++ "        SELECT ?value ?valueLabel" ++ nl
     ++ "        WHERE {" ++ nl
     ++ "          wd:" ++ entity_id ++ " wdt:" ++ property_id ++ " ?value." ++ nl
     ++ "          SERVICE wikibase:label { bd:serviceParam wikibase:language "
     ++ dq ++ "en" ++ dq ++ ". }" ++ nl
     ++ "        }" ++ nl
     ++ "        ".
Definition general_facts_query (entity_id : string) : string :=
  nl ++ "        SELECT ?property ?propertyLabel ?value ?valueLabel" ++ nl
     ++ "        WHERE {" ++ nl
     ++ "          wd:" ++ entity_id ++ " ?p ?statement." ++ nl
     ++ "          ?statement ?ps ?value." ++ nl
     ++ "          " ++ nl
     ++ "          ?property wikibase:claim ?p." ++ nl
     ++ "          ?property wikibase:statementProperty ?ps." ++ nl
     ++ "          " ++ nl
     ++ "          SERVICE wikibase:label { bd:serviceParam wikibase:language "
     ++ dq ++ "en" ++ dq ++ ". }" ++ nl
     ++ "        }" ++ nl
     ++ "        LIMIT 10" ++ nl
     ++ "        ".

(** The end of [find_entity_facts], from [# Build and execute SPARQL
    query] on; [property_id] is [None] ([JNull]) when no property was
    searched. [execute_sparql] always returns a str. *)
Definition report_facts (entity_id : json) (metadata : json)
    (property_name : option string) (property_id : json) : M string :=
  let sparql_query :=
    if truthy property_id then property_facts_query (py_str entity_id) (py_str property_id)
    else general_facts_query (py_str entity_id) in
  facts <- execute_sparql backend json_dumps sparql_query ;;
  let facts_data :=
    match json_loads facts with Some j => j | None => JObj [("raw", JStr facts)] end in
  let name := match property_name with Some pn => JStr pn | None => JNull end in
  ret (json_dumps (JObj
    [("entity", metadata);
     ("property", if truthy property_id then JObj [("id", property_id); ("name", name)] else JNull);
     ("facts", facts_data)])).

(** The [find_entity_facts] tool. [property_name] is [None] or a str. The
    ids the searches return are str for the Wikidata API; another value
    would be passed on as [str()] of it. *)
Definition find_entity_facts (entity_name : string) (property_name : option string) : M string :=
  entity_id <- search_entity backend entity_name ;;
  if is_str "No entity found" entity_id then
    ret (json_dumps (error_record ("No entity found for '" ++ entity_name ++ "'")))
  else
    metadata <- get_entity_metadata backend (py_str entity_id) ;;
    match property_name with
    | Some pn =>
        if negb (String.eqb pn "") then
          property_id <- search_property backend pn ;;
          if is_str "No property found" property_id then
            ret (json_dumps (JObj [("entity", metadata);
                                   ("error", JStr ("No property found for '" ++ pn ++ "'"))]))
          else report_facts entity_id metadata property_name property_id
        else report_facts entity_id metadata property_name JNull
    | None => report_facts entity_id metadata property_name JNull
    end.

(** [str(limit)] for a Python int. *)
Definition py_int_str (n : Z) : string :=
  DecimalString.NilZero.string_of_int (Z.to_int n).

(** The two f-strings of [get_related_entities]. *)
Definition related_by_query (entity_id relation_property limit : string) : string :=
  nl ++ "        SELECT ?related ?relatedLabel" ++ nl
     ++ "        WHERE {" ++ nl
     ++ "          wd:" ++ entity_id ++ " wdt:" ++ relation_property ++ " ?related." ++ nl
     ++ "          SERVICE wikibase:label { bd:serviceParam wikibase:language "
     ++ dq ++ "en" ++ dq ++ ". }" ++ nl
     ++ "        }" ++ nl
     ++ "        LIMIT " ++ limit ++ nl
     ++ "        ".
Definition any_relation_query (entity_id limit : string) : string :=
  nl ++ "        SELECT ?relation ?relationLabel ?related ?relatedLabel" ++ nl
     ++ "        WHERE {" ++ nl
     ++ "          wd:" ++ entity_id ++ " ?p ?related." ++ nl
     ++ "          ?property wikibase:directClaim ?p." ++ nl
     ++ "          BIND(?property as ?relation)" ++ nl
     ++ "          " ++ nl
     ++ "          # Filter out some common non-entity relations" ++ nl
     ++ "          FILTER(STRSTARTS(STR(?related), " ++ dq
     ++ "http://www.wikidata.org/entity/" ++ dq ++ "))" ++ nl
     ++ "          " ++ nl
     ++ "          SERVICE wikibase:label { bd:serviceParam wikibase:language "
     ++ dq ++ "en" ++ dq ++ ". }" ++ nl
     ++ "        }" ++ nl
     ++ "        LIMIT " ++ limit ++ nl
     ++ "        ".

(** The [get_related_entities] tool. [execute_sparql] always returns a
    str, so the [json.dumps] branch of the source is unreachable. *)
Definition get_related_entities (entity_id : string) (relation_property : option string)
    (limit : Z) : M string :=
  let sparql_query :=
    if negb (falsy relation_property) then
      related_by_query entity_id (match relation_property with Some p => p | None => "" end)
        (py_int_str limit)
    else any_relation_query entity_id (py_int_str limit) in
  related_entities <- execute_sparql backend json_dumps sparql_query ;;
  ret related_entities.

End Tools.

(** One entry of [active_sessions]. Every entry is created with both
    [created_at] and [last_activity], so the sort key
    [x[1].get("last_activity", x[1].get("created_at", ""))] is
    [last_activity]; [message_count] is absent until the first POST. *)
Record session_meta := SessionMeta {
  client_host : string;
  created_at : string;
  last_activity : string;
  message_count : option nat;
  connection_count : nat }.

Definition sessions := list (string * session_meta).

Definition sort_key (x : string * session_meta) : string := last_activity (snd x).

(** [sorted(..., key=sort_key, reverse=True)]: descending and stable, so
    among equal keys the earlier entry stays first. *)
Fixpoint insert_desc (x : string * session_meta) (l : sessions) : sessions :=
  match l with
  | [] => [x]
  | y :: l' => if String.leb (sort_key y) (sort_key x) then x :: y :: l'
               else y :: insert_desc x l'
  end.

Fixpoint sort_desc (l : sessions) : sessions :=
  match l with
  | [] => []
  | x :: l' => insert_desc x (sort_desc l')
  end.

(** The metadata update of a POST: [last_activity] and [message_count]. *)
Definition touch (now : string) (m : session_meta) : session_meta :=
  {| client_host := client_host m; created_at := created_at m; last_activity := now;
     message_count := Some (match message_count m with Some c => c | None => 0 end + 1);
     connection_count := connection_count m |}.

Record post_request := PostRequest {
  query_params : list (string * string);
  query_string : string;
  req_client_host : string }.

(** What the handler does before [sse_transport.handle_post_message]: the
    session it settled on, the registry afterwards and the query string
    left in [request.scope] for the transport. *)
Record post_outcome := PostOutcome {
  resolved : string;
  active_sessions : sessions;
  forwarded_query_string : string }.

(** The branch for an absent or unknown id: the most recently active
    session when there is one, else a new entry. *)
Definition fallback (act : sessions) (req : post_request) (now fresh : string)
    : string * sessions :=
  match sort_desc act with
  | (k, m) :: _ => (k, set_item k (touch now m) act)
  | [] => (fresh, set_item fresh
             {| client_host := req_client_host req; created_at := now;
                last_activity := now; message_count := Some 1;
                connection_count := 0 |} act)
  end.

(** [post_messages_no_slash] up to the hand-over to the SSE transport.
    [now] is [datetime.now().isoformat()] and [fresh] is [str(uuid4())],
    used only when a session is created. *)
Definition post_messages_no_slash (act : sessions) (req : post_request)
    (now fresh : string) : post_outcome :=
  let '(session_id, act') :=
    match qp_get "session_id" (query_params req) with
    | Some s =>
        if negb (String.eqb s "") && mem s act then
          match assoc s act with
          | Some m => (s, set_item s (touch now m) act)
          | None => (s, act)
          end
        else fallback act req now fresh
    | None => fallback act req now fresh
    end in
  let qs := if negb (qp_has "session_id" (query_params req))
            then "session_id=" ++ session_id
            else query_string req in
  {| resolved := session_id; active_sessions := act'; forwarded_query_string := qs |}.


(** [sse_endpoint], its registry update before the MCP run: a registered
    [session_id] from the query string is reused and its [last_activity]
    set; otherwise a new entry is stored under [fresh] ([str(uuid4())]). *)
Definition set_last_activity (now : string) (m : session_meta) : session_meta :=
  {| client_host := client_host m; created_at := created_at m; last_activity := now;
     message_count := message_count m; connection_count := connection_count m |}.

Definition sse_new_session (host now : string) : session_meta :=
  {| client_host := host; created_at := now; last_activity := now;
     message_count := None; connection_count := 1 |}.

Definition sse_endpoint_open (act : sessions) (qp : list (string * string))
    (host now fresh : string) : string * sessions :=
  let new := (fresh, set_item fresh (sse_new_session host now) act) in
  match qp_get "session_id" qp with
  | Some s =>
      if negb (String.eqb s "") && mem s act then
        match assoc s act with
        | Some m => (s, set_item s (set_last_activity now m) act)
        | None => (s, act)
        end
      else new
  | None => new
  end.

(** How [mcp._mcp_server.run] (or the sleep before it) ends: normally, by
    a [RuntimeError], by another [Exception], or by cancellation (a
    [BaseException], caught by neither [except]). *)
Inductive mcp_exit := ExitNormal | ExitRuntimeError | ExitError | ExitCancelled.

(** [if session_id in active_sessions: del active_sessions[session_id]]. *)
Definition del_if_present (sid : string) (act : sessions) : sessions :=
  if mem sid act then del_item sid act else act.

(** The end of [sse_endpoint]: the status of the [Response] an [except]
    branch returns (none when the function returns [None] or the
    cancellation propagates) and the registry after the [except] and
    [finally] blocks. [act] is the registry when the run ends. *)
Definition sse_endpoint_exit (act : sessions) (session_id : string) (e : mcp_exit)
    : option nat * sessions :=
  match e with
  | ExitNormal => (None, del_if_present session_id act)
  | ExitRuntimeError => (Some 503, del_if_present session_id (del_if_present session_id act))
  | ExitError => (Some 500, del_if_present session_id (del_if_present session_id act))
  | ExitCancelled => (None, del_if_present session_id act)
  end.
End ServerSse.

(** ** render_server.py: the hand-written SSE bridge *)
Module RenderServer.
Import WikidataApi.

(** The [execute_wikidata_sparql] tool of this server. *)
Definition execute_wikidata_sparql backend json_dumps (query : string) : M string :=
  result <- execute_sparql backend json_dumps query ;;
  ret result.

(** An item of an [asyncio.Queue]: a message, or [None], the close signal. *)
Definition qitem := option string.

(** One entry of [active_connections]; the queues are shared objects,
    named by references into the queue store. *)
Record conn := Conn {
  read_queue : nat;
  write_queue : nat;
  created_at : string;
  client_host : string }.

Record world := World {
  active_connections : list (string * conn);
  queues : nat -> list qitem;
  next_queue : nat }.

Definition set_queue (qs : nat -> list qitem) (r : nat) (v : list qitem) : nat -> list qitem :=
  fun r' => if Nat.eqb r r' then v else qs r'.

(** [await q.put(x)] on an unbounded queue. *)
Definition put (w : world) (r : nat) (x : qitem) : world :=
  {| active_connections := active_connections w;
     queues := set_queue (queues w) r (queues w r ++ [x]);
     next_queue := next_queue w |}.

Inductive task_state := NotCreated | Running | Finished | Cancelled.

(** Where the [generate] coroutine of one stream stands: not started,
    suspended at the initial [yield] (before the [try]), inside the
    [try] (at [write_queue.get()] or at the data [yield]), or closed. *)
Inductive gen_pc := GenCreated | AtEndpointYield | InLoop | GenClosed.

Record gen := Gen {
  g_session_id : string;
  g_read_queue : nat;
  g_write_queue : nat;
  g_pc : gen_pc;
  g_mcp_task : task_state;
  g_ping_task : task_state }.

Definition set_pc (g : gen) (pc : gen_pc) : gen :=
  {| g_session_id := g_session_id g; g_read_queue := g_read_queue g;
     g_write_queue := g_write_queue g; g_pc := pc;
     g_mcp_task := g_mcp_task g; g_ping_task := g_ping_task g |}.
Definition set_tasks (g : gen) (mcp ping : task_state) : gen :=
  {| g_session_id := g_session_id g; g_read_queue := g_read_queue g;
     g_write_queue := g_write_queue g; g_pc := g_pc g;
     g_mcp_task := mcp; g_ping_task := ping |}.

(** The SSE frames of [generate]. *)
Definition endpoint_frame (session_id : string) : string :=
  "event: endpoint" ++ nl ++ "data: /messages?session_id=" ++ session_id ++ nl ++ nl.
Definition data_frame (message : string) : string :=
  "data: " ++ message ++ nl ++ nl.

(** The ping of [send_periodic_pings]. *)
Definition ping_message (timestamp : string) : string := ": ping - " ++ timestamp.

(** [sse_endpoint]: the session id is [str(uuid4())]; two fresh queues
    are stored under it and [generate] is created, not yet started. *)
Definition sse_endpoint (w : world) (client_host : string) (now : string)
    (session_id : string) : world * gen :=
  let rq := next_queue w in
  let wq := S rq in
  let w' := {| active_connections :=
                 set_item session_id (Conn rq wq now client_host) (active_connections w);
               queues := set_queue (set_queue (queues w) rq []) wq [];
               next_queue := S wq |} in
  (w', Gen session_id rq wq GenCreated NotCreated NotCreated).

(** The [finally] block of [generate]: cancel the ping task, cancel the
    MCP task unless it is done, delete the registry entry if present. *)
Definition cancel (t : task_state) : task_state :=
  match t with Running => Cancelled | t => t end.

Definition cleanup (w : world) (g : gen) : world * gen :=
  let sid := g_session_id g in
  let w' := if mem sid (active_connections w)
            then {| active_connections := del_item sid (active_connections w);
                    queues := queues w; next_queue := next_queue w |}
            else w in
  (w', set_pc (set_tasks g (cancel (g_mcp_task g)) (cancel (g_ping_task g))) GenClosed).

(** What a request for the next chunk of the stream gives. *)
Inductive next_result := Yielded (frame : string) | Blocked | Stopped.

(** One iteration of [while True: message = await write_queue.get() ...]. *)
Definition loop_get (w : world) (g : gen) : world * gen * next_result :=
  let wq := g_write_queue g in
  match queues w wq with
  | [] => (w, set_pc g InLoop, Blocked)
  | None :: rest =>
      let w1 := {| active_connections := active_connections w;
                   queues := set_queue (queues w) wq rest; next_queue := next_queue w |} in
      let '(w2, g2) := cleanup w1 g in (w2, g2, Stopped)
  | Some m :: rest =>
      let w1 := {| active_connections := active_connections w;
                   queues := set_queue (queues w) wq rest; next_queue := next_queue w |} in
      (w1, set_pc g InLoop, Yielded (data_frame m))
  end.

(** The transport asks [generate] for its next chunk. *)
Definition gen_next (w : world) (g : gen) : world * gen * next_result :=
  match g_pc g with
  | GenCreated => (w, set_pc g AtEndpointYield, Yielded (endpoint_frame (g_session_id g)))
  | AtEndpointYield =>
      (* resumed after the first yield: both tasks are created, then the loop *)
      loop_get w (set_tasks g Running Running)
  | InLoop => loop_get w g
  | GenClosed => (w, g, Stopped)
  end.

(** The stream ends from outside (client disconnect, cancellation, error
    raised into the coroutine) at its current suspension point. An
    exception raised at the initial [yield] is outside the [try]. *)
Definition gen_throw (w : world) (g : gen) : world * gen :=
  match g_pc g with
  | GenCreated => (w, set_pc g GenClosed)
  | AtEndpointYield => (w, set_pc g GenClosed)
  | InLoop => cleanup w g
  | GenClosed => (w, g)
  end.

(** One wake-up of [send_periodic_pings] after its sleep: enqueue a ping
    if the session is still registered, otherwise leave the [while]. *)
Definition ping_tick (w : world) (g : gen) (timestamp : string) : world * gen :=
  match g_ping_task g with
  | Running =>
      let sid := g_session_id g in
      match assoc sid (active_connections w) with
      | Some c => (put w (write_queue c) (Some (ping_message timestamp)), g)
      | None => (w, set_tasks g (g_mcp_task g) Finished)
      end
  | _ => (w, g)
  end.

(** [run_mcp_server] returning (normally or by an error): its [finally]
    puts [None] on the write queue. *)
Definition mcp_done (w : world) (g : gen) : world * gen :=
  match g_mcp_task g with
  | Running => (put w (g_write_queue g) None, set_tasks g Finished (g_ping_task g))
  | _ => (w, g)
  end.

(** [messages_endpoint]: status code and the effect on the queues. *)
Definition messages_endpoint (w : world) (query_params : list (string * string))
    (body : string) : world * nat :=
  let session_id := qp_get "session_id" query_params in
  match session_id with
  | Some s =>
      if negb (falsy session_id) then
        match assoc s (active_connections w) with
        | Some c => (put w (read_queue c) (Some body), 200)
        | None => (w, 400)
        end
      else (w, 400)
  | None => (w, 400)
  end.

(** Everything that can happen to one open stream. *)
Inductive event :=
| Next
| Throw
| PingTick (timestamp : string)
| McpDone
| Post (query_params : list (string * string)) (body : string).

Definition step (w : world) (g : gen) (e : event) : world * gen * option string :=
  match e with
  | Next => let '(w', g', r) := gen_next w g in
            (w', g', match r with Yielded f => Some f | _ => None end)
  | Throw => let '(w', g') := gen_throw w g in (w', g', None)
  | PingTick ts => let '(w', g') := ping_tick w g ts in (w', g', None)
  | McpDone => let '(w', g') := mcp_done w g in (w', g', None)
  | Post qp body => let '(w', _) := messages_endpoint w qp body in (w', g, None)
  end.

(** The frames delivered on the stream for a sequence of events. *)
Fixpoint run (w : world) (g : gen) (es : list event) : world * gen * list string :=
  match es with
  | [] => (w, g, [])
  | e :: es' =>
      let '(w1, g1, o) := step w g e in
      let '(w2, g2, fs) := run w1 g1 es' in
      (w2, g2, match o with Some f => f :: fs | None => fs end)
  end.

Definition empty_world : world := {| active_connections := []; queues := fun _ => []; next_queue := 0 |}.



(** The [get_wikidata_metadata] and [get_wikidata_properties] tools of
    this server: the f-string of the log line after the call evaluates
    [result[:100]] before [logger.info] runs. *)
Definition get_wikidata_metadata backend (entity_id : string) : M json :=
  result <- get_entity_metadata backend entity_id ;;
  _ <- lift (slice_to result 100) ;;
  ret result.

Definition get_wikidata_properties backend json_dumps json_loads (entity_id : string) : M json :=
  result <- get_entity_properties backend json_dumps json_loads entity_id ;;
  _ <- lift (slice_to result 100) ;;
  ret result.

(** Successive POSTs to [/messages] with the same query string: the world
    afterwards and the status codes, in order. *)
Fixpoint post_all (w : world) (qp : list (string * string)) (bodies : list string)
    : world * list nat :=
  match bodies with
  | [] => (w, [])
  | body :: rest =>
      let '(w1, st) := messages_endpoint w qp body in
      let '(w2, sts) := post_all w1 qp rest in
      (w2, st :: sts)
  end.

(** The registry invariant: session ids are unique, and the queues of all
    entries are pairwise distinct references below [next_queue]. *)
Definition queue_refs (c : conn) : list nat := [read_queue c; write_queue c].

Definition wf (w : world) : Prop :=
  NoDup (map fst (active_connections w)) /\
  NoDup (flat_map (fun e => queue_refs (snd e)) (active_connections w)) /\
  Forall (fun e => (read_queue (snd e) < next_queue w)%nat
                   /\ (write_queue (snd e) < next_queue w)%nat)
    (active_connections w).
End RenderServer.

(** ** minimal_server.py: the earlier hand-written SSE bridge *)
Module MinimalServer.
Import RenderServer (qitem, set_queue, task_state, NotCreated, Running, Finished, Cancelled,
                     gen_pc, GenCreated, AtEndpointYield, InLoop, GenClosed,
                     endpoint_frame, data_frame, ping_message, cancel,
                     next_result, Yielded, Blocked, Stopped,
                     event, Next, Throw, PingTick, McpDone, Post).

(** One entry of [active_connections]: the two shared queues and
    [import_time()]. *)
Record conn := Conn {
  read_queue : nat;
  write_queue : nat;
  created_at : string }.

Record world := World {
  active_connections : list (string * conn);
  queues : nat -> list qitem;
  next_queue : nat }.

Definition put (w : world) (r : nat) (x : qitem) : world :=
  {| active_connections := active_connections w;
     queues := set_queue (queues w) r (queues w r ++ [x]);
     next_queue := next_queue w |}.

(** The [event_generator] coroutine. Its body draws the session id
    ([str(uuid.uuid4())]) and reads the clock ([import_time()]) only
    when it first runs: [g_session_id] and [g_created_at] are the values
    those calls return, and the queue references are set then. *)
Record gen := Gen {
  g_session_id : string;
  g_created_at : string;
  g_read_queue : nat;
  g_write_queue : nat;
  g_pc : gen_pc;
  g_mcp_task : task_state;
  g_ping_task : task_state }.

Definition set_pc (g : gen) (pc : gen_pc) : gen :=
  {| g_session_id := g_session_id g; g_created_at := g_created_at g;
     g_read_queue := g_read_queue g; g_write_queue := g_write_queue g; g_pc := pc;
     g_mcp_task := g_mcp_task g; g_ping_task := g_ping_task g |}.
Definition set_tasks (g : gen) (mcp ping : task_state) : gen :=
  {| g_session_id := g_session_id g; g_created_at := g_created_at g;
     g_read_queue := g_read_queue g; g_write_queue := g_write_queue g; g_pc := g_pc g;
     g_mcp_task := mcp; g_ping_task := ping |}.

(** [sse_endpoint]: only creates [event_generator()]; nothing of its body
    has run yet. *)
Definition sse_endpoint (session_id created_at : string) : gen :=
  Gen session_id created_at 0 0 GenCreated NotCreated NotCreated.

(** The body of [event_generator] up to its first [yield]: register the
    session with two fresh queues, then yield the endpoint event. *)
Definition gen_start (w : world) (g : gen) : world * gen * next_result :=
  let sid := g_session_id g in
  let rq := next_queue w in
  let wq := S rq in
  let w' := {| active_connections :=
                 set_item sid (Conn rq wq (g_created_at g)) (active_connections w);
               queues := set_queue (set_queue (queues w) rq []) wq [];
               next_queue := S wq |} in
  (w', Gen sid (g_created_at g) rq wq AtEndpointYield NotCreated NotCreated,
   Yielded (endpoint_frame sid)).

(** The [finally] block: cancel the ping task, delete the registry entry
    if present. The MCP task is not kept, so it is not cancelled. *)
Definition cleanup (w : world) (g : gen) : world * gen :=
  let sid := g_session_id g in
  let w' := if mem sid (active_connections w)
            then {| active_connections := del_item sid (active_connections w);
                    queues := queues w; next_queue := next_queue w |}
            else w in
  (w', set_pc (set_tasks g (g_mcp_task g) (cancel (g_ping_task g))) GenClosed).

Definition loop_get (w : world) (g : gen) : world * gen * next_result :=
  let wq := g_write_queue g in
  match queues w wq with
  | [] => (w, set_pc g InLoop, Blocked)
  | None :: rest =>
      let w1 := {| active_connections := active_connections w;
                   queues := set_queue (queues w) wq rest; next_queue := next_queue w |} in
      let '(w2, g2) := cleanup w1 g in (w2, g2, Stopped)
  | Some m :: rest =>
      let w1 := {| active_connections := active_connections w;
                   queues := set_queue (queues w) wq rest; next_queue := next_queue w |} in
      (w1, set_pc g InLoop, Yielded (data_frame m))
  end.

Definition gen_next (w : world) (g : gen) : world * gen * next_result :=
  match g_pc g with
  | GenCreated => gen_start w g
  | AtEndpointYield => loop_get w (set_tasks g Running Running)
  | InLoop => loop_get w g
  | GenClosed => (w, g, Stopped)
  end.

(** Closing the generator from outside: before it started, nothing runs;
    at the first [yield] (before the [try]) the [finally] is skipped. *)
Definition gen_throw (w : world) (g : gen) : world * gen :=
  match g_pc g with
  | GenCreated => (w, set_pc g GenClosed)
  | AtEndpointYield => (w, set_pc g GenClosed)
  | InLoop => cleanup w g
  | GenClosed => (w, g)
  end.

(** One wake-up of [send_periodic_pings] after its sleep. *)
Definition ping_tick (w : world) (g : gen) (timestamp : string) : world * gen :=
  match g_ping_task g with
  | Running =>
      match assoc (g_session_id g) (active_connections w) with
      | Some c => (put w (write_queue c) (Some (ping_message timestamp)), g)
      | None => (w, set_tasks g (g_mcp_task g) Finished)
      end
  | _ => (w, g)
  end.

(** [run_mcp_server] returning: its [finally] puts [None]. *)
Definition mcp_done (w : world) (g : gen) : world * gen :=
  match g_mcp_task g with
  | Running => (put w (g_write_queue g) None, set_tasks g Finished (g_ping_task g))
  | _ => (w, g)
  end.

(** [messages_endpoint]. *)
Definition messages_endpoint (w : world) (query_params : list (string * string))
    (body : string) : world * nat :=
  let session_id := qp_get "session_id" query_params in
  match session_id with
  | Some s =>
      if negb (falsy session_id) then
        match assoc s (active_connections w) with
        | Some c => (put w (read_queue c) (Some body), 200)
        | None => (w, 400)
        end
      else (w, 400)
  | None => (w, 400)
  end.

Definition empty_world : world :=
  {| active_connections := []; queues := fun _ => []; next_queue := 0 |}.

(** The registry invariant: distinct ids, pairwise distinct queues below
    [next_queue]. *)
Definition wf (w : world) : Prop :=
  NoDup (map fst (active_connections w)) /\
  NoDup (flat_map (fun e => [read_queue (snd e); write_queue (snd e)]) (active_connections w)) /\
  Forall (fun e => (read_queue (snd e) < next_queue w)%nat
                   /\ (write_queue (snd e) < next_queue w)%nat)
    (active_connections w).
End MinimalServer.

(** ** How the MCP task of the two bridges runs *)
Module McpTask.

(** Whether [from mcp.transport.stream import QueueReadStream,
    QueueWriteStream], the first statement of [run_mcp_server] in both
    render_server.py and minimal_server.py, succeeds. The [mcp] package
    the servers use ([mcp.server.fastmcp]) has no [mcp.transport]
    subpackage, so the import raises [ModuleNotFoundError], an
    [Exception]: [run_mcp_server] goes to its [finally] at once. *)
Definition transport_stream_importable : bool := false.

(** The asyncio schedule when [generate] is resumed after its first
    [yield]: it creates the MCP task and the ping task, and suspends at
    [write_queue.get()] on its still empty write queue. The MCP task
    runs next: when the import fails it returns and its [finally] puts
    [None] (an unbounded [put] does not suspend). The ping task then
    starts its [asyncio.sleep]. Only then does [get] return. *)
Definition render_gen_next (w : RenderServer.world) (g : RenderServer.gen)
    : RenderServer.world * RenderServer.gen * RenderServer.next_result :=
  match RenderServer.g_pc g with
  | RenderServer.AtEndpointYield =>
      let g1 := RenderServer.set_tasks g RenderServer.Running RenderServer.Running in
      let '(w2, g2) := if transport_stream_importable then (w, g1)
                       else RenderServer.mcp_done w g1 in
      RenderServer.loop_get w2 g2
  | _ => RenderServer.gen_next w g
  end.

Definition render_step (w : RenderServer.world) (g : RenderServer.gen) (e : RenderServer.event)
    : RenderServer.world * RenderServer.gen * option string :=
  match e with
  | RenderServer.Next =>
      let '(w', g', r) := render_gen_next w g in
      (w', g', match r with RenderServer.Yielded f => Some f | _ => None end)
  | _ => RenderServer.step w g e
  end.

Fixpoint render_run (w : RenderServer.world) (g : RenderServer.gen) (es : list RenderServer.event)
    : RenderServer.world * RenderServer.gen * list string :=
  match es with
  | [] => (w, g, [])
  | e :: es' =>
      let '(w1, g1, o) := render_step w g e in
      let '(w2, g2, fs) := render_run w1 g1 es' in
      (w2, g2, match o with Some f => f :: fs | None => fs end)
  end.

(** The same schedule for [event_generator] of minimal_server.py. *)
Definition minimal_gen_next (w : MinimalServer.world) (g : MinimalServer.gen)
    : MinimalServer.world * MinimalServer.gen * RenderServer.next_result :=
  match MinimalServer.g_pc g with
  | RenderServer.AtEndpointYield =>
      let g1 := MinimalServer.set_tasks g RenderServer.Running RenderServer.Running in
      let '(w2, g2) := if transport_stream_importable then (w, g1)
                       else MinimalServer.mcp_done w g1 in
      MinimalServer.loop_get w2 g2
  | _ => MinimalServer.gen_next w g
  end.

Definition minimal_step (w : MinimalServer.world) (g : MinimalServer.gen) (e : RenderServer.event)
    : MinimalServer.world * MinimalServer.gen * option string :=
  match e with
  | RenderServer.Next =>
      let '(w', g', r) := minimal_gen_next w g in
      (w', g', match r with RenderServer.Yielded f => Some f | _ => None end)
  | RenderServer.Throw => let '(w', g') := MinimalServer.gen_throw w g in (w', g', None)
  | RenderServer.PingTick ts => let '(w', g') := MinimalServer.ping_tick w g ts in (w', g', None)
  | RenderServer.McpDone => let '(w', g') := MinimalServer.mcp_done w g in (w', g', None)
  | RenderServer.Post qp body =>
      let '(w', _) := MinimalServer.messages_endpoint w qp body in (w', g, None)
  end.

Fixpoint minimal_run (w : MinimalServer.world) (g : MinimalServer.gen) (es : list RenderServer.event)
    : MinimalServer.world * MinimalServer.gen * list string :=
  match es with
  | [] => (w, g, [])
  | e :: es' =>
      let '(w1, g1, o) := minimal_step w g e in
      let '(w2, g2, fs) := minimal_run w1 g1 es' in
      (w2, g2, match o with Some f => f :: fs | None => fs end)
  end.
End McpTask.

(** ** The spec's notion of a prefix declaration *)
Module SpecSide.
Local Open Scope nat_scope.

Definition lower (c : ascii) : ascii :=
  let n := nat_of_ascii c in
  if (65 <=? n) && (n <=? 90) then ascii_of_nat (n + 32) else c.

Definition is_ws (c : ascii) : bool :=
  let n := nat_of_ascii c in (n =? 32) || (n =? 9) || (n =? 10) || (n =? 13).

Definition is_name_char (c : ascii) : bool :=
  let n := nat_of_ascii c in
  ((48 <=? n) && (n <=? 57)) || ((65 <=? n) && (n <=? 90)) || ((97 <=? n) && (n <=? 122))
  || (n =? 95) || (n =? 45) || (n =? 46).

(** The rest of [s] after the lowercase keyword [p], matched without
    regard to case. *)
Fixpoint ci_strip (p s : string) : option string :=
  match p, s with
  | EmptyString, _ => Some s
  | String c p', String d s' => if Ascii.eqb c (lower d) then ci_strip p' s' else None
  | String _ _, EmptyString => None
  end.

Fixpoint drop_while (f : ascii -> bool) (s : string) : string :=
  match s with
  | String c s' => if f c then drop_while f s' else s
  | EmptyString => EmptyString
  end.

(** A SPARQL [PREFIX name: <iri>] declaration starting at [s]: the
    keyword in any case, white space, a prefix name, a colon and an IRI. *)
Definition decl_at (s : string) : bool :=
  match ci_strip "prefix" s with
  | Some (String c r) =>
      is_ws c &&
      match drop_while is_name_char (drop_while is_ws r) with
      | String ":" r' =>
          match drop_while is_ws r' with String "<" _ => true | _ => false end
      | _ => false
      end
  | _ => false
  end.

Fixpoint declares_prefix_from (at_boundary : bool) (s : string) : bool :=
  (at_boundary && decl_at s)
  || match s with
     | EmptyString => false
     | String c s' => declares_prefix_from (is_ws c || Ascii.eqb c "{"%char) s'
     end.

(** The query text contains a namespace prefix declaration. *)
Definition declares_prefix (q : string) : bool := declares_prefix_from true q.

End SpecSide.

(** * Properties *)

Import WikidataApi.

(** ** The backend client's effects *)

(** Every request [m] issues satisfies [P]. *)
Definition sends_only {A} (P : http_request -> Prop) (m : M A) : Prop :=
  forall log, exists sent, snd (m log) = app log sent /\ Forall P sent.

(** [m] issues at least one request, and every request satisfies [P]. *)
Definition sends_some {A} (P : http_request -> Prop) (m : M A) : Prop :=
  forall log, exists r sent, snd (m log) = app log (r :: sent) /\ Forall P (r :: sent).

Lemma ret_sends {A} P (a : A) : sends_only P (ret a).
Proof. intros log. exists []. rewrite app_nil_r. auto. Qed.

Lemma lift_sends {A} P (r : result A) : sends_only P (lift r).
Proof. intros log. exists []. rewrite app_nil_r. auto. Qed.

Lemma raise_sends {A} P (e : exn) : sends_only P (@raise A e).
Proof. intros log. exists []. rewrite app_nil_r. auto. Qed.

Lemma http_get_sends b (P : http_request -> Prop) req :
  P req -> sends_some P (http_get b req).
Proof. intros HP log. exists req, []. simpl. auto. Qed.

Lemma bind_sends {A B} P (m : M A) (k : A -> M B) :
  sends_only P m -> (forall a, sends_only P (k a)) -> sends_only P (bind m k).
Proof.
  intros Hm Hk log. unfold bind.
  destruct (Hm log) as [s1 [E1 F1]].
  destruct (m log) as [[a|e] l1]; simpl in E1; subst l1.
  - destruct (Hk a (app log s1)) as [s2 [E2 F2]].
    exists (app s1 s2). rewrite E2, app_assoc. split; [reflexivity|].
    apply Forall_app; auto.
  - exists s1. auto.
Qed.

Lemma bind_sends_some {A B} P (m : M A) (k : A -> M B) :
  sends_some P m -> (forall a, sends_only P (k a)) -> sends_some P (bind m k).
Proof.
  intros Hm Hk log. unfold bind.
  destruct (Hm log) as [r [s1 [E1 F1]]].
  destruct (m log) as [[a|e] l1]; simpl in E1; subst l1.
  - destruct (Hk a (app log (r :: s1))) as [s2 [E2 F2]].
    exists r, (app s1 s2). rewrite E2, <- app_assoc. split; [reflexivity|].
    change (r :: app s1 s2) with (app (r :: s1) s2). apply Forall_app; auto.
  - exists r, s1. auto.
Qed.

Lemma catch_sends {A} P (m : M A) (h : exn -> M A) :
  sends_only P m -> (forall e, sends_only P (h e)) -> sends_only P (catch m h).
Proof.
  intros Hm Hh log. unfold catch.
  destruct (Hm log) as [s1 [E1 F1]].
  destruct (m log) as [[a|e] l1]; simpl in E1; subst l1.
  - exists s1. auto.
  - destruct (Hh e (app log s1)) as [s2 [E2 F2]].
    exists (app s1 s2). rewrite E2, app_assoc. split; [reflexivity|].
    apply Forall_app; auto.
Qed.

Lemma catch_sends_some {A} P (m : M A) (h : exn -> M A) :
  sends_some P m -> (forall e, sends_only P (h e)) -> sends_some P (catch m h).
Proof.
  intros Hm Hh log. unfold catch.
  destruct (Hm log) as [r [s1 [E1 F1]]].
  destruct (m log) as [[a|e] l1]; simpl in E1; subst l1.
  - exists r, s1. auto.
  - destruct (Hh e (app log (r :: s1))) as [s2 [E2 F2]].
    exists r, (app s1 s2). rewrite E2, <- app_assoc. split; [reflexivity|].
    change (r :: app s1 s2) with (app (r :: s1) s2). apply Forall_app; auto.
Qed.

Lemma sends_some_only {A} P (m : M A) : sends_some P m -> sends_only P m.
Proof. intros H log. destruct (H log) as [r [s [E F]]]. exists (r :: s). auto. Qed.

Lemma http_get_sends_only b (P : http_request -> Prop) req :
  P req -> sends_only P (http_get b req).
Proof. intros HP. apply sends_some_only, http_get_sends, HP. Qed.

Create HintDb sends.
#[local] Hint Resolve ret_sends lift_sends raise_sends : sends.

(** The query text a SPARQL request carries. *)
Definition carries_query (q : string) (r : http_request) : Prop :=
  assoc "query" (params r) = Some q.

Lemma dump_bindings_sends dumps P results : sends_only P (dump_bindings dumps results).
Proof.
  unfold dump_bindings. apply bind_sends; [auto with sends|intros].
  apply bind_sends; auto with sends.
Qed.

Lemma execute_sparql_with_requests_sends b dumps q :
  sends_some (carries_query (full_query q)) (execute_sparql_with_requests b dumps q).
Proof.
  unfold execute_sparql_with_requests. apply catch_sends_some; [|auto with sends].
  apply bind_sends_some.
  - apply http_get_sends. reflexivity.
  - intros [m|results]; [auto with sends|apply dump_bindings_sends].
Qed.

Lemma execute_sparql_sends b dumps q :
  sends_some (carries_query (full_query q)) (execute_sparql b dumps q).
Proof.
  unfold execute_sparql. simpl. apply catch_sends_some.
  - apply bind_sends_some.
    + apply http_get_sends. reflexivity.
    + intros [m|results]; [auto with sends|apply dump_bindings_sends].
  - intros _. apply sends_some_only, execute_sparql_with_requests_sends.
Qed.

(** ** Quote checks of the SPARQL tools *)

Lemma count_char_str_in (c : ascii) (s : string) :
  count_char c s <> 0 -> str_in (String c EmptyString) s = true.
Proof.
  induction s as [|c' s IH]; simpl; [congruence|].
  intros Hc. destruct (Ascii.eqb c c') eqn:E.
  - apply Ascii.eqb_eq in E. subst c'.
    destruct (ascii_dec c c); [destruct s; reflexivity|congruence].
  - rewrite IH by (simpl in Hc; exact Hc). apply orb_true_r.
Qed.

Lemma odd_count_str_in (c : ascii) (s : string) :
  ServerSse.odd_count c s = true -> str_in (String c EmptyString) s = true.
Proof.
  unfold ServerSse.odd_count. intros H. apply count_char_str_in.
  intros E. rewrite E in H. discriminate.
Qed.

(** In server_sse.py a query with an odd number of double or of single
    quotes is answered by an error record and no request is issued. *)
Lemma sse_sparql_unbalanced_local b dumps loads pso q log :
  ServerSse.odd_count dq_char q = true \/ ServerSse.odd_count sq_char q = true ->
  exists msg, ServerSse.execute_wikidata_sparql b dumps loads pso q log
              = (Ok (ServerSse.error_record msg), log).
Proof.
  intros Hodd. unfold ServerSse.execute_wikidata_sparql, catch.
  destruct (str_in dq q && ServerSse.odd_count dq_char q) eqn:Hd.
  - eexists. reflexivity.
  - destruct Hodd as [Hodd|Hodd].
    + unfold dq in Hd. rewrite (odd_count_str_in _ _ Hodd), Hodd in Hd. discriminate.
    + unfold sq. rewrite (odd_count_str_in _ _ Hodd), Hodd. eexists. reflexivity.
Qed.

(** A query whose double quote is never closed. *)
Definition unbalanced_query : string :=
  "SELECT ?x WHERE { ?x rdfs:label " ++ dq ++ "Einstein }".

(** C6: the server_sse tool rejects [unbalanced_query] locally, while the
    render_server tool of the same name sends it to the SPARQL endpoint. *)
Theorem render_sparql_sends_unbalanced_query :
  ServerSse.odd_count dq_char unbalanced_query = true /\
  (forall b dumps loads pso log,
     ServerSse.execute_wikidata_sparql b dumps loads pso unbalanced_query log
     = (Ok (ServerSse.error_record "Unbalanced double quotes in SPARQL query"), log)) /\
  (forall b dumps log, exists r sent,
     snd (RenderServer.execute_wikidata_sparql b dumps unbalanced_query log)
     = app log (r :: sent)
     /\ carries_query (full_query unbalanced_query) r).
Proof.
  split; [reflexivity|split].
  - intros. reflexivity.
  - intros b dumps log. unfold RenderServer.execute_wikidata_sparql.
    destruct (bind_sends_some _ _ (fun r => ret r) (execute_sparql_sends b dumps unbalanced_query)
                (fun a => ret_sends _ a) log) as [r [sent [E F]]].
    exists r, sent. split; [exact E|]. inversion F; assumption.
Qed.

(** ** Default prefixes *)

(** C7 (amended): every request [execute_sparql] issues (at least one)
    carries [full_query q], which is [q] with the six default prefixes in
    front exactly when [q] contains neither "PREFIX" nor "prefix". *)
Theorem execute_sparql_sends_full_query b dumps q log :
  (exists r sent, snd (execute_sparql b dumps q log) = app log (r :: sent)
                  /\ Forall (carries_query (full_query q)) (r :: sent)) /\
  full_query q = (if str_in "PREFIX" q || str_in "prefix" q then q
                  else sparql_prefixes ++ q).
Proof.
  split.
  - apply execute_sparql_sends.
  - unfold full_query. simpl. rewrite orb_false_r.
    destruct (str_in "PREFIX" q || str_in "prefix" q); reflexivity.
Qed.

Definition prefix_word_query : string :=
  "SELECT ?prefix WHERE { ?prefix wdt:P31 wd:Q5 }".

(** A backend answering every SPARQL request with an empty binding list. *)
Definition empty_bindings_backend (n : nat) (r : http_request) : http_response :=
  HttpJson (JObj [("results", JObj [("bindings", JArr [])])]).

(** C7 fails: [prefix_word_query] declares no prefix, yet it is sent
    without the default prefixes, because the word "prefix" occurs in it. *)
Lemma prefix_word_query_sent_bare :
  SpecSide.declares_prefix prefix_word_query = false /\
  snd (execute_sparql empty_bindings_backend (fun _ => "[]") prefix_word_query [])
    = [HttpRequest WIKIDATA_SPARQL_ENDPOINT [("query", prefix_word_query)]] /\
  full_query prefix_word_query <> sparql_prefixes ++ prefix_word_query.
Proof.
  split; [vm_compute; reflexivity|split; [vm_compute; reflexivity|]].
  intros H. apply (f_equal String.length) in H. vm_compute in H. discriminate.
Qed.

(** ** Entity search *)

(** C8: the first search hit's id is returned as it is, an empty hit list
    gives "No entity found", and a [RequestException] gives an error
    string instead of propagating. *)
Theorem search_entity_outcomes b q log :
  (forall kvs rkvs rs v,
     b (List.length log) (search_entity_request q) = HttpJson (JObj kvs) ->
     assoc "search" kvs = Some (JArr (JObj rkvs :: rs)) ->
     assoc "id" rkvs = Some v ->
     fst (search_entity b q log) = Ok v) /\
  (forall kvs,
     b (List.length log) (search_entity_request q) = HttpJson (JObj kvs) ->
     assoc "search" kvs = Some (JArr []) ->
     fst (search_entity b q log) = Ok (JStr "No entity found")) /\
  (forall m,
     b (List.length log) (search_entity_request q) = HttpRaised m ->
     fst (search_entity b q log) = Ok (JStr ("Error searching for entity: " ++ m))).
Proof.
  unfold search_entity, bind, http_get, lift, ret. simpl.
  split; [|split].
  - intros kvs rkvs rs v Hb Hs Hid. rewrite Hb. simpl. rewrite Hs. simpl. rewrite Hid. reflexivity.
  - intros kvs Hb Hs. rewrite Hb. simpl. rewrite Hs. reflexivity.
  - intros m Hb. rewrite Hb. reflexivity.
Qed.

Definition einstein_backend (n : nat) (r : http_request) : http_response :=
  HttpJson (JObj [("search", JArr [JObj [("id", JStr "Q937"); ("label", JStr "Albert Einstein")]])]).

Lemma search_entity_outcomes_witness :
  fst (search_entity einstein_backend "Albert Einstein" []) = Ok (JStr "Q937").
Proof.
  apply (proj1 (search_entity_outcomes einstein_backend "Albert Einstein" []))
    with (kvs := [("search", JArr [JObj [("id", JStr "Q937"); ("label", JStr "Albert Einstein")]])])
         (rkvs := [("id", JStr "Q937"); ("label", JStr "Albert Einstein")]) (rs := []);
    reflexivity.
Defined.

(** ** Metadata lookups against a deterministic backend *)

Section Determinism.

Variable b : nat -> http_request -> http_response.
(** The backend's answer does not depend on when the request is made. *)
Hypothesis deterministic : forall n m r, b n r = b m r.

(** The value [m] computes does not depend on the requests issued before. *)
Definition indep {A} (m : M A) : Prop := forall l1 l2, fst (m l1) = fst (m l2).

Lemma ret_indep {A} (a : A) : indep (ret a).
Proof. intros l1 l2. reflexivity. Qed.

Lemma lift_indep {A} (r : result A) : indep (lift r).
Proof. intros l1 l2. reflexivity. Qed.

Lemma http_get_indep req : indep (http_get b req).
Proof. intros l1 l2. simpl. f_equal. apply deterministic. Qed.

Lemma bind_indep {A B} (m : M A) (k : A -> M B) :
  indep m -> (forall a, indep (k a)) -> indep (bind m k).
Proof.
  intros Hm Hk l1 l2. unfold bind.
  specialize (Hm l1 l2).
  destruct (m l1) as [r1 l1'], (m l2) as [r2 l2']. simpl in Hm. subst r2.
  destruct r1; [apply Hk|reflexivity].
Qed.

Ltac indep_tac :=
  repeat first
    [ apply bind_indep; [|intro]
    | apply ret_indep
    | apply lift_indep
    | apply http_get_indep
    | match goal with
      | |- indep (if ?c then _ else _) => destruct c
      | |- indep (match ?x with _ => _ end) => destruct x
      end ].

Lemma get_entity_metadata_indep entity_id : indep (get_entity_metadata b entity_id).
Proof. unfold get_entity_metadata. indep_tac. Qed.

Lemma get_wikidata_metadata_indep dumps entity_id :
  indep (ServerSse.get_wikidata_metadata b dumps entity_id).
Proof.
  unfold ServerSse.get_wikidata_metadata. apply bind_indep.
  - apply get_entity_metadata_indep.
  - intros. apply ret_indep.
Qed.

End Determinism.

(** C9: against a deterministic backend, a second [get_entity_metadata]
    call returns the record of the first, and the [get_wikidata_metadata]
    tool returns the same JSON text. *)
Theorem get_wikidata_metadata_idempotent b dumps entity_id log :
  (forall n m r, b n r = b m r) ->
  fst (get_entity_metadata b entity_id (snd (get_entity_metadata b entity_id log)))
    = fst (get_entity_metadata b entity_id log) /\
  fst (ServerSse.get_wikidata_metadata b dumps entity_id
         (snd (ServerSse.get_wikidata_metadata b dumps entity_id log)))
    = fst (ServerSse.get_wikidata_metadata b dumps entity_id log).
Proof.
  intros Hdet. split.
  - apply (get_entity_metadata_indep b Hdet).
  - apply (get_wikidata_metadata_indep b Hdet).
Qed.

Definition einstein_metadata_backend (n : nat) (r : http_request) : http_response :=
  HttpJson (JObj [("entities", JObj [("Q937", JObj
    [("labels", JObj [("en", JObj [("value", JStr "Albert Einstein")])]);
     ("descriptions", JObj [("en", JObj [("value", JStr "physicist")])])])])]).

Lemma get_wikidata_metadata_idempotent_witness :
  (forall n m r, einstein_metadata_backend n r = einstein_metadata_backend m r) /\
  fst (ServerSse.get_wikidata_metadata einstein_metadata_backend (fun _ => "{}") "Q937"
         (snd (ServerSse.get_wikidata_metadata einstein_metadata_backend (fun _ => "{}") "Q937" [])))
    = fst (ServerSse.get_wikidata_metadata einstein_metadata_backend (fun _ => "{}") "Q937" []).
Proof.
  split; [intros; reflexivity|].
  apply (get_wikidata_metadata_idempotent einstein_metadata_backend (fun _ => "{}") "Q937" []).
  intros; reflexivity.
Defined.

(** ** Session resolution of POST /messages *)

Lemma string_compare_refl (s : string) : String.compare s s = Eq.
Proof.
  induction s as [|c s IH]; simpl; [reflexivity|].
  pose proof (proj2 (OrderedTypeEx.Ascii_as_OT.cmp_eq c c) eq_refl) as Hc.
  unfold OrderedTypeEx.Ascii_as_OT.cmp in Hc. rewrite Hc. exact IH.
Qed.

Lemma string_leb_refl (s : string) : String.leb s s = true.
Proof. unfold String.leb. rewrite string_compare_refl. reflexivity. Qed.

Lemma string_leb_lt_or_eq (a b : string) :
  String.leb a b = true -> a = b \/ OrderedTypeEx.String_as_OT.lt a b.
Proof.
  unfold String.leb. destruct (String.compare a b) eqn:E; intros H; try discriminate.
  - left. apply String.compare_eq_iff, E.
  - right. apply OrderedTypeEx.String_as_OT.cmp_lt, E.
Qed.

Lemma string_leb_trans (a b c : string) :
  String.leb a b = true -> String.leb b c = true -> String.leb a c = true.
Proof.
  intros Hab Hbc.
  destruct (string_leb_lt_or_eq _ _ Hab) as [->|Lab]; [exact Hbc|].
  destruct (string_leb_lt_or_eq _ _ Hbc) as [<-|Lbc]; [exact Hab|].
  pose proof (OrderedTypeEx.String_as_OT.lt_trans _ _ _ Lab Lbc) as Lac.
  apply OrderedTypeEx.String_as_OT.cmp_lt in Lac.
  unfold String.leb. change (String.compare a c) with (OrderedTypeEx.String_as_OT.cmp a c).
  rewrite Lac. reflexivity.
Qed.

Lemma string_leb_false (a b : string) : String.leb a b = false -> String.leb b a = true.
Proof. intros H. destruct (String.leb_total a b); congruence. Qed.

Module SessionOrder.
Import ServerSse.

Lemma insert_desc_in x y l : In y (insert_desc x l) <-> x = y \/ In y l.
Proof.
  induction l as [|z l IH]; simpl.
  - tauto.
  - destruct (String.leb (sort_key z) (sort_key x)); simpl; [tauto|].
    rewrite IH. tauto.
Qed.

Lemma sort_desc_in y l : In y (sort_desc l) <-> In y l.
Proof.
  induction l as [|x l IH]; simpl; [tauto|].
  rewrite insert_desc_in, IH. intuition.
Qed.

Lemma sort_desc_nil l : sort_desc l = [] -> l = [].
Proof.
  destruct l as [|x l]; [reflexivity|]. intros H.
  assert (In x (sort_desc (x :: l))) as Hin by (apply sort_desc_in; left; reflexivity).
  rewrite H in Hin. destruct Hin.
Qed.

(** The first entry after the sort has the greatest [last_activity]. *)
Lemma sort_desc_head_max l x t :
  sort_desc l = x :: t -> forall y, In y l -> String.leb (sort_key y) (sort_key x) = true.
Proof.
  revert x t. induction l as [|a l IH]; intros x t Hs y Hy; [destruct Hy|].
  simpl in Hs. destruct (sort_desc l) as [|h t'] eqn:El.
  - simpl in Hs. injection Hs as Hx Ht. subst x t. apply sort_desc_nil in El. subst l.
    destruct Hy as [<-|[]]. apply string_leb_refl.
  - simpl in Hs. destruct (String.leb (sort_key h) (sort_key a)) eqn:Eha.
    + injection Hs as Hx Ht. subst x t. destruct Hy as [<-|Hy]; [apply string_leb_refl|].
      eapply string_leb_trans; [apply (IH h t' eq_refl y Hy)|exact Eha].
    + injection Hs as Hx Ht. subst x t. destruct Hy as [<-|Hy].
      * apply string_leb_false, Eha.
      * apply (IH h t' eq_refl y Hy).
Qed.

Lemma assoc_set_item_same {A} k (v : A) d : assoc k (set_item k v d) = Some v.
Proof.
  induction d as [|[k' v'] d IH]; simpl.
  - rewrite String.eqb_refl. reflexivity.
  - destruct (String.eqb k k') eqn:E; simpl.
    + rewrite String.eqb_refl. reflexivity.
    + rewrite E. exact IH.
Qed.

Lemma in_assoc {A} k (v : A) d : In (k, v) d -> exists v', assoc k d = Some v'.
Proof.
  induction d as [|[k' v'] d IH]; simpl; [intros []|].
  intros [E|Hin].
  - injection E as -> ->. rewrite String.eqb_refl. eauto.
  - destruct (String.eqb k k'); eauto.
Qed.

Lemma qp_get_has k qp s : qp_get k qp = Some s -> qp_has k qp = true.
Proof.
  unfold qp_get, qp_has.
  assert (forall acc, fold_left (fun acc '(k', v) => if String.eqb k k' then Some v else acc) qp acc
                      = Some s -> acc = Some s \/ existsb (fun '(k', _) => String.eqb k k') qp = true)
    as Gen.
  { induction qp as [|[k' v] qp IH]; simpl; intros acc H; [auto|].
    destruct (String.eqb k k'); simpl; [auto|]. apply IH, H. }
  intros H. destruct (Gen None H) as [E|E]; [discriminate|exact E].
Qed.

(** The fallback branch on a non-empty registry takes the entry with the
    greatest [last_activity] and touches it. *)
Lemma fallback_most_recent act req now fresh :
  act <> [] ->
  exists k m, fallback act req now fresh = (k, set_item k (touch now m) act)
    /\ In (k, m) act
    /\ (forall k' m', In (k', m') act -> String.leb (last_activity m') (last_activity m) = true).
Proof.
  intros Hne. unfold fallback.
  destruct (sort_desc act) as [|[k m] t] eqn:Es; [apply sort_desc_nil in Es; congruence|].
  exists k, m. split; [reflexivity|split].
  - apply sort_desc_in. rewrite Es. left. reflexivity.
  - intros k' m' Hin. apply (sort_desc_head_max act (k, m) t Es (k', m') Hin).
Qed.

(** The sort is stable: every entry before the first one in the
    registry has a strictly smaller [last_activity]. *)
Lemma sort_desc_head_first l x t :
  sort_desc l = x :: t ->
  exists pre post, l = app pre (x :: post) /\
    forall y, In y pre -> String.leb (sort_key x) (sort_key y) = false.
Proof.
  revert x t. induction l as [|a l IH]; intros x t Hs; [discriminate|].
  simpl in Hs. destruct (sort_desc l) as [|h t'] eqn:El.
  - simpl in Hs. injection Hs as -> _. exists [], l. split; [reflexivity|intros y []].
  - simpl in Hs. destruct (String.leb (sort_key h) (sort_key a)) eqn:Eha.
    + injection Hs as -> _. exists [], l. split; [reflexivity|intros y []].
    + injection Hs as -> _. destruct (IH x t' eq_refl) as [pre [post [-> Hpre]]].
      exists (a :: pre), post. split; [reflexivity|].
      intros y [<-|Hy]; [exact Eha|exact (Hpre y Hy)].
Qed.

(** With ties the fallback takes, among the entries with the greatest
    [last_activity], the first one in insertion order. *)
Lemma fallback_first_most_recent act req now fresh :
  act <> [] ->
  exists pre k m post, act = app pre ((k, m) :: post)
    /\ fallback act req now fresh = (k, set_item k (touch now m) act)
    /\ (forall k' m', In (k', m') pre -> String.leb (last_activity m) (last_activity m') = false)
    /\ (forall k' m', In (k', m') act -> String.leb (last_activity m') (last_activity m) = true).
Proof.
  intros Hne. unfold fallback.
  destruct (sort_desc act) as [|[k m] t] eqn:Es; [apply sort_desc_nil in Es; congruence|].
  destruct (sort_desc_head_first act (k, m) t Es) as [pre [post [Ea Hpre]]].
  exists pre, k, m, post. split; [exact Ea|split; [reflexivity|split]].
  - intros k' m' Hin. exact (Hpre (k', m') Hin).
  - intros k' m' Hin. apply (sort_desc_head_max act (k, m) t Es (k', m') Hin).
Qed.

(** The query string handed on is rewritten exactly when the request has
    no [session_id] parameter. *)
Lemma forwarded_query_string_eq act req now fresh :
  forwarded_query_string (post_messages_no_slash act req now fresh)
  = if negb (qp_has "session_id" (query_params req))
    then "session_id=" ++ resolved (post_messages_no_slash act req now fresh)
    else query_string req.
Proof.
  unfold post_messages_no_slash.
  match goal with |- context [let '(_, _) := ?e in _] => destruct e end.
  reflexivity.
Qed.

(** The id given is absent, empty or not registered. *)
Definition unresolved (act : sessions) (req : post_request) : Prop :=
  forall s, qp_get "session_id" (query_params req) = Some s -> s = "" \/ mem s act = false.

Lemma post_unresolved act req now fresh :
  unresolved act req ->
  resolved (post_messages_no_slash act req now fresh) = fst (fallback act req now fresh) /\
  active_sessions (post_messages_no_slash act req now fresh) = snd (fallback act req now fresh).
Proof.
  intros Hu. unfold post_messages_no_slash.
  destruct (qp_get "session_id" (query_params req)) as [s|] eqn:Eq.
  - destruct (Hu s Eq) as [->|Hm].
    + simpl. destruct (fallback act req now fresh). auto.
    + rewrite Hm, andb_false_r. destruct (fallback act req now fresh). auto.
  - destruct (fallback act req now fresh). auto.
Qed.

End SessionOrder.

Import ServerSse SessionOrder.

(** The record [post_messages_no_slash] stores for a new session. *)
Definition new_session_meta (req : post_request) (now : string) : session_meta :=
  {| client_host := req_client_host req; created_at := now; last_activity := now;
     message_count := Some 1; connection_count := 0 |}.

(** C2 (amended): server_sse's POST /messages takes a registered id and
    touches it; for an absent, empty or unknown id it takes the session
    with the greatest [last_activity], the first inserted among equals,
    and touches it, or stores a new session when there is none. The POST
    /messages handlers of render_server and minimal_server answer 400 for
    an absent, empty or unknown id and change nothing. *)
Theorem post_messages_session_selection act req now fresh w mw qp body :
  (forall s m, qp_get "session_id" (query_params req) = Some s -> s <> "" ->
     assoc s act = Some m ->
     resolved (post_messages_no_slash act req now fresh) = s /\
     assoc s (active_sessions (post_messages_no_slash act req now fresh)) = Some (touch now m)) /\
  (unresolved act req -> act <> [] ->
     exists pre m post,
       act = app pre ((resolved (post_messages_no_slash act req now fresh), m) :: post) /\
       (forall k' m', In (k', m') pre -> String.leb (last_activity m) (last_activity m') = false) /\
       (forall k' m', In (k', m') act -> String.leb (last_activity m') (last_activity m) = true) /\
       assoc (resolved (post_messages_no_slash act req now fresh))
             (active_sessions (post_messages_no_slash act req now fresh)) = Some (touch now m)) /\
  (unresolved act req -> act = [] ->
     resolved (post_messages_no_slash act req now fresh) = fresh /\
     active_sessions (post_messages_no_slash act req now fresh) = [(fresh, new_session_meta req now)]) /\
  ((forall s, qp_get "session_id" qp = Some s ->
      s = "" \/ assoc s (RenderServer.active_connections w) = None) ->
     RenderServer.messages_endpoint w qp body = (w, 400)) /\
  ((forall s, qp_get "session_id" qp = Some s ->
      s = "" \/ assoc s (MinimalServer.active_connections mw) = None) ->
     MinimalServer.messages_endpoint mw qp body = (mw, 400)).
Proof.
  split; [|split; [|split; [|split]]].
  - intros s m Hq Hne Ha. unfold post_messages_no_slash. rewrite Hq.
    assert (mem s act = true) as Hm by (unfold mem; rewrite Ha; reflexivity).
    rewrite Hm, (proj2 (String.eqb_neq s "") Hne). simpl. rewrite Ha. simpl.
    split; [reflexivity|apply assoc_set_item_same].
  - intros Hu Hne. destruct (post_unresolved act req now fresh Hu) as [-> ->].
    destruct (fallback_first_most_recent act req now fresh Hne)
      as [pre [k [m [post [Ea [Ef [Hpre Hmax]]]]]]].
    rewrite Ef. simpl. exists pre, m, post.
    split; [exact Ea|split; [exact Hpre|split; [exact Hmax|]]].
    apply assoc_set_item_same.
  - intros Hu ->. destruct (post_unresolved [] req now fresh Hu) as [-> ->]. simpl. auto.
  - intros Hu. unfold RenderServer.messages_endpoint.
    destruct (qp_get "session_id" qp) as [s|] eqn:Eq; [|reflexivity].
    destruct (Hu s eq_refl) as [->|Ha]; [reflexivity|].
    simpl. rewrite Ha. destruct (String.eqb s ""); reflexivity.
  - intros Hu. unfold MinimalServer.messages_endpoint.
    destruct (qp_get "session_id" qp) as [s|] eqn:Eq; [|reflexivity].
    destruct (Hu s eq_refl) as [->|Ha]; [reflexivity|].
    simpl. rewrite Ha. destruct (String.eqb s ""); reflexivity.
Qed.

Definition two_sessions : sessions :=
  [("a", {| client_host := "h"; created_at := "2026-10-18T10:00:00";
            last_activity := "2026-10-18T10:00:00"; message_count := None; connection_count := 1 |});
   ("b", {| client_host := "h"; created_at := "2026-10-18T10:05:00";
            last_activity := "2026-10-18T10:05:00"; message_count := None; connection_count := 1 |})].

Definition stale_post : post_request :=
  {| query_params := [("session_id", "zz")]; query_string := "session_id=zz"; req_client_host := "h" |}.

(** Two sessions last active at the same time. *)
Definition tied_sessions : sessions :=
  [("a", {| client_host := "h"; created_at := "2026-10-18T10:00:00";
            last_activity := "2026-10-18T10:05:00"; message_count := None; connection_count := 1 |});
   ("b", {| client_host := "h"; created_at := "2026-10-18T10:05:00";
            last_activity := "2026-10-18T10:05:00"; message_count := None; connection_count := 1 |})].

Lemma post_messages_session_selection_witness :
  resolved (post_messages_no_slash two_sessions stale_post "2026-10-18T11:00:00" "new") = "b" /\
  resolved (post_messages_no_slash tied_sessions stale_post "2026-10-18T11:00:00" "new") = "a" /\
  resolved (post_messages_no_slash [] stale_post "2026-10-18T11:00:00" "new") = "new" /\
  snd (RenderServer.messages_endpoint RenderServer.empty_world [("session_id", "zz")] "{}") = 400 /\
  snd (MinimalServer.messages_endpoint MinimalServer.empty_world [("session_id", "zz")] "{}") = 400.
Proof.
  split; [|split; [|split; [|split]]].
  - assert (Hu : unresolved two_sessions stale_post).
    { intros s Hs. vm_compute in Hs. injection Hs as <-. right. reflexivity. }
    assert (Hne : two_sessions <> []) by discriminate.
    destruct (proj1 (proj2 (post_messages_session_selection two_sessions stale_post
                "2026-10-18T11:00:00" "new" RenderServer.empty_world MinimalServer.empty_world
                [] "{}")) Hu Hne)
      as [pre [m [post [Ea [_ [Hmax _]]]]]].
    remember (resolved (post_messages_no_slash two_sessions stale_post
                "2026-10-18T11:00:00" "new")) as r eqn:Er. clear Er.
    assert (Hin : In (r, m) two_sessions)
      by (rewrite Ea; apply in_or_app; right; left; reflexivity).
    pose proof (Hmax "b" (snd (nth 1 two_sessions ("", m))) (or_intror (or_introl eq_refl))) as Hb.
    unfold two_sessions in Hin. cbn [In] in Hin.
    destruct Hin as [E|[E|[]]]; injection E as Ek Em; [|exact (eq_sym Ek)].
    subst m. vm_compute in Hb. discriminate.
  - assert (Hu : unresolved tied_sessions stale_post).
    { intros s Hs. vm_compute in Hs. injection Hs as <-. right. reflexivity. }
    assert (Hne : tied_sessions <> []) by discriminate.
    destruct (proj1 (proj2 (post_messages_session_selection tied_sessions stale_post
                "2026-10-18T11:00:00" "new" RenderServer.empty_world MinimalServer.empty_world
                [] "{}")) Hu Hne)
      as [pre [m [post [Ea [Hpre [Hmax _]]]]]].
    remember (resolved (post_messages_no_slash tied_sessions stale_post
                "2026-10-18T11:00:00" "new")) as r eqn:Er. clear Er.
    assert (Hin : In (r, m) tied_sessions)
      by (rewrite Ea; apply in_or_app; right; left; reflexivity).
    assert (Hm : last_activity m = "2026-10-18T10:05:00").
    { unfold tied_sessions in Hin. cbn [In] in Hin.
      destruct Hin as [E|[E|[]]]; apply (f_equal snd) in E; cbn [snd] in E; subst m;
        reflexivity. }
    destruct pre as [|[k' m'] pre].
    + unfold tied_sessions in Ea. cbn [app] in Ea. injection Ea as Ek _ _. exact (eq_sym Ek).
    + unfold tied_sessions in Ea. cbn [app] in Ea. injection Ea as _ Em' _.
      specialize (Hpre k' m' (or_introl eq_refl)). rewrite Hm, <- Em' in Hpre.
      vm_compute in Hpre. discriminate.
  - assert (Hu : unresolved [] stale_post).
    { intros s Hs. right. reflexivity. }
    apply (proj1 (proj1 (proj2 (proj2 (post_messages_session_selection [] stale_post
                "2026-10-18T11:00:00" "new" RenderServer.empty_world MinimalServer.empty_world
                [] "{}"))) Hu eq_refl)).
  - rewrite (proj1 (proj2 (proj2 (proj2 (post_messages_session_selection [] stale_post
                "2026-10-18T11:00:00" "new" RenderServer.empty_world MinimalServer.empty_world
                [("session_id", "zz")] "{}"))))).
    + reflexivity.
    + intros s Hs. right. vm_compute in Hs. injection Hs as <-. reflexivity.
  - rewrite (proj2 (proj2 (proj2 (proj2 (post_messages_session_selection [] stale_post
                "2026-10-18T11:00:00" "new" RenderServer.empty_world MinimalServer.empty_world
                [("session_id", "zz")] "{}"))))).
    + reflexivity.
    + intros s Hs. right. vm_compute in Hs. injection Hs as <-. reflexivity.
Defined.

(** C2 fails on render_server: a POST without a session id while no
    session exists is answered 400 and no session is allocated. *)
Lemma render_post_without_session_rejected :
  snd (RenderServer.messages_endpoint RenderServer.empty_world [] "{}") = 400 /\
  RenderServer.active_connections (fst (RenderServer.messages_endpoint RenderServer.empty_world [] "{}")) = [].
Proof. split; reflexivity. Qed.

(** C10: the query string handed to the SSE transport is rewritten only
    when the POST has no [session_id] parameter; a POST whose id is
    unknown and was replaced by another session keeps its own query
    string. *)
Theorem post_messages_forwarded_query_string act req now fresh :
  (qp_has "session_id" (query_params req) = true ->
     forwarded_query_string (post_messages_no_slash act req now fresh) = query_string req) /\
  (qp_has "session_id" (query_params req) = false ->
     forwarded_query_string (post_messages_no_slash act req now fresh)
     = "session_id=" ++ resolved (post_messages_no_slash act req now fresh)) /\
  (forall s, qp_get "session_id" (query_params req) = Some s -> mem s act = false -> act <> [] ->
     resolved (post_messages_no_slash act req now fresh) <> s /\
     forwarded_query_string (post_messages_no_slash act req now fresh) = query_string req).
Proof.
  rewrite forwarded_query_string_eq.
  split; [intros ->; reflexivity|split; [intros ->; reflexivity|]].
  intros s Hq Hm Hne. rewrite (qp_get_has _ _ _ Hq). split; [|reflexivity].
  assert (unresolved act req) as Hu.
  { intros s' Hs'. rewrite Hq in Hs'. injection Hs' as <-. right. exact Hm. }
  destruct (post_unresolved act req now fresh Hu) as [-> _].
  destruct (fallback_most_recent act req now fresh Hne) as [k [m [Ef [Hin _]]]].
  rewrite Ef. simpl. intros <-.
  destruct (in_assoc _ _ _ Hin) as [v Hv]. unfold mem in Hm. rewrite Hv in Hm. discriminate.
Qed.

Lemma post_messages_forwarded_query_string_witness :
  resolved (post_messages_no_slash two_sessions stale_post "2026-10-18T11:00:00" "new") <> "zz" /\
  forwarded_query_string (post_messages_no_slash two_sessions stale_post "2026-10-18T11:00:00" "new")
    = "session_id=zz".
Proof.
  apply (proj2 (proj2 (post_messages_forwarded_query_string two_sessions stale_post
           "2026-10-18T11:00:00" "new")) "zz").
  - reflexivity.
  - reflexivity.
  - discriminate.
Defined.

(** ** The push stream of render_server.py *)

Import RenderServer.






(** A closed stream yields nothing more. *)
Lemma run_closed w g es :
  g_pc g = GenClosed -> let '(_, _, frames) := run w g es in frames = [].
Proof.
  revert w g. induction es as [|e es IH]; intros w g Hpc; simpl; [reflexivity|].
  assert (let '(w1, g1, o) := step w g e in g_pc g1 = GenClosed /\ o = None) as Hs.
  { destruct e as [| |ts| |qp body]; simpl.
    - unfold gen_next. rewrite Hpc. auto.
    - unfold gen_throw. rewrite Hpc. auto.
    - unfold ping_tick. destruct (g_ping_task g); auto.
      destruct (assoc (g_session_id g) (active_connections w)); auto.
    - unfold mcp_done. destruct (g_mcp_task g); auto.
    - destruct (messages_endpoint w qp body); auto. }
  destruct (step w g e) as [[w1 g1] o]. destruct Hs as [Hpc1 ->].
  specialize (IH w1 g1 Hpc1). destruct (run w1 g1 es) as [[w2 g2] fs]. exact IH.
Qed.









Definition disconnect_session_id : string := "3b241101-e2bb-4255-8caf-4136c566a962".

(** C4 fails: a client that disconnects right after the [endpoint]
    event, while [generate] is suspended at its first [yield] (before
    the [try]), leaves its entry in [active_connections] for good; the
    same disconnect one step later, inside the [try], removes it and
    cancels the ping task. *)
Theorem disconnect_at_endpoint_keeps_session :
  let '(w0, g0) := sse_endpoint empty_world "203.0.113.7" "2026-10-18T12:00:00"
                     disconnect_session_id in
  (let '(w1, g1, frames) := run w0 g0 [Next; Throw] in
   frames = [endpoint_frame disconnect_session_id] /\ g_pc g1 = GenClosed /\
   mem disconnect_session_id (active_connections w1) = true) /\
  (let '(w2, g2, frames) := run w0 g0 [Next; Next; Throw] in
   frames = [endpoint_frame disconnect_session_id] /\ g_pc g2 = GenClosed /\
   mem disconnect_session_id (active_connections w2) = false /\
   g_ping_task g2 = Cancelled).
Proof. vm_compute. repeat split; reflexivity. Qed.

(** * Further properties of the code *)

(** ** Steps that issue no request *)

Definition pure {A} (m : M A) : Prop := forall log, snd (m log) = log.

Lemma ret_pure {A} (a : A) : pure (ret a).
Proof. intros log. reflexivity. Qed.

Lemma lift_pure {A} (r : result A) : pure (lift r).
Proof. intros log. reflexivity. Qed.

Lemma raise_pure {A} (e : exn) : pure (@raise A e).
Proof. intros log. reflexivity. Qed.

Lemma bind_pure {A B} (m : M A) (k : A -> M B) :
  pure m -> (forall a, pure (k a)) -> pure (bind m k).
Proof.
  intros Hm Hk log. unfold bind. specialize (Hm log).
  destruct (m log) as [[a|e] l]; simpl in *; subst l; [apply Hk|reflexivity].
Qed.

Ltac pure_tac :=
  repeat first
    [ apply bind_pure; [|intro]
    | apply ret_pure
    | apply lift_pure
    | apply raise_pure
    | match goal with
      | |- pure (if ?c then _ else _) => destruct c
      | |- pure (match ?x with _ => _ end) => destruct x
      end ].

Lemma bind_http_get_log {A} b req (k : http_response -> M A) log :
  (forall r, pure (k r)) -> snd (bind (http_get b req) k log) = app log [req].
Proof. intros Hk. unfold bind, http_get. simpl. apply Hk. Qed.

Lemma dump_bindings_pure dumps results : pure (dump_bindings dumps results).
Proof. unfold dump_bindings. pure_tac. Qed.

Lemma length_app_one {A} (l : list A) (x : A) : List.length (app l [x]) = S (List.length l).
Proof. rewrite length_app. simpl. lia. Qed.

(** The two SPARQL requests [execute_sparql] can make: the SPARQLWrapper
    one, then the [requests] fallback. *)
Definition sparql_wrapper_request (q : string) : http_request :=
  HttpRequest WIKIDATA_SPARQL_ENDPOINT [("query", full_query q)].
Definition sparql_requests_request (q : string) : http_request :=
  HttpRequest WIKIDATA_SPARQL_ENDPOINT [("query", full_query q); ("format", "json")].

Lemma execute_sparql_with_requests_shape b dumps q log :
  exists s, execute_sparql_with_requests b dumps q log
            = (Ok s, app log [sparql_requests_request q]).
Proof.
  unfold execute_sparql_with_requests, catch, bind, http_get. simpl.
  destruct (b (List.length log) _) as [m|results]; simpl.
  - eexists. reflexivity.
  - pose proof (dump_bindings_pure dumps results (app log [sparql_requests_request q])) as Hp.
    destruct (dump_bindings dumps results _) as [[s|e] l]; simpl in Hp; subst l;
      eexists; reflexivity.
Qed.

(** The request of [get_entity_metadata]. *)
Definition get_entity_metadata_request (entity_id : string) : http_request :=
  HttpRequest WIKIDATA_API_URL
    [("action", "wbgetentities"); ("format", "json"); ("ids", entity_id);
     ("languages", "en"); ("props", "labels|descriptions")].

Lemma get_entity_metadata_log b entity_id log :
  snd (get_entity_metadata b entity_id log) = app log [get_entity_metadata_request entity_id].
Proof. unfold get_entity_metadata. apply bind_http_get_log. intros r. pure_tac. Qed.

Lemma search_entity_log b q log :
  snd (search_entity b q log) = app log [search_entity_request q].
Proof. unfold search_entity. apply bind_http_get_log. intros r. pure_tac. Qed.

Lemma search_property_log b q log :
  snd (search_property b q log) = app log [search_property_request q].
Proof. unfold search_property. apply bind_http_get_log. intros r. pure_tac. Qed.

Lemma prefix_app (p s t : string) : prefix p s = true -> prefix p (s ++ t) = true.
Proof.
  revert s. induction p as [|c p IH]; intros s H.
  - destruct (s ++ t); reflexivity.
  - destruct s as [|c' s]; [discriminate|]. simpl in *.
    destruct (ascii_dec c c'); [apply IH, H|discriminate].
Qed.

Lemma str_in_app_l (p a b : string) : str_in p a = true -> str_in p (a ++ b) = true.
Proof.
  induction a as [|c a IH]; intros H.
  - simpl in H. rewrite orb_false_r in H. simpl.
    destruct p; [destruct b; reflexivity|].
    destruct b; simpl in *; [discriminate|]. discriminate.
  - simpl in H. simpl. apply orb_true_iff in H as [H|H].
    + apply orb_true_iff. left. exact (prefix_app p (String c a) b H).
    + rewrite IH by exact H. apply orb_true_r.
Qed.

(** X1: [search_property] makes exactly one request, a [wbsearchentities]
    search of type property; it returns the first hit's id, "No property
    found" when the hit list is missing or empty, and an error string
    when the request fails. *)
Theorem search_property_outcomes b q log :
  snd (search_property b q log) = app log [search_property_request q] /\
  (forall kvs rkvs rs v,
     b (List.length log) (search_property_request q) = HttpJson (JObj kvs) ->
     assoc "search" kvs = Some (JArr (JObj rkvs :: rs)) ->
     assoc "id" rkvs = Some v ->
     fst (search_property b q log) = Ok v) /\
  (forall kvs,
     b (List.length log) (search_property_request q) = HttpJson (JObj kvs) ->
     assoc "search" kvs = None \/ assoc "search" kvs = Some (JArr []) ->
     fst (search_property b q log) = Ok (JStr "No property found")) /\
  (forall m,
     b (List.length log) (search_property_request q) = HttpRaised m ->
     fst (search_property b q log) = Ok (JStr ("Error searching for property: " ++ m))).
Proof.
  split; [apply search_property_log|].
  unfold search_property, bind, http_get, lift, ret. simpl.
  split; [|split].
  - intros kvs rkvs rs v Hb Hs Hid. rewrite Hb. simpl. rewrite Hs. simpl. rewrite Hid. reflexivity.
  - intros kvs Hb [Hs|Hs]; rewrite Hb; simpl; rewrite Hs; reflexivity.
  - intros m Hb. rewrite Hb. reflexivity.
Qed.

Definition instance_of_backend (n : nat) (r : http_request) : http_response :=
  HttpJson (JObj [("search", JArr [JObj [("id", JStr "P31"); ("label", JStr "instance of")]])]).

Lemma search_property_outcomes_witness :
  fst (search_property instance_of_backend "instance of" []) = Ok (JStr "P31").
Proof.
  apply (proj1 (proj2 (search_property_outcomes instance_of_backend "instance of" [])))
    with (kvs := [("search", JArr [JObj [("id", JStr "P31"); ("label", JStr "instance of")]])])
         (rkvs := [("id", JStr "P31"); ("label", JStr "instance of")]) (rs := []);
    reflexivity.
Defined.

(** What [entity.get(field, {}).get("en", {}).get("value", default)]
    gives for a field of an entity record, when every level present is a
    dict: the English value, or [default] when the field, its "en" entry
    or that entry's "value" is missing. *)
Definition en_field_value (field : option json) (default : string) (v : json) : Prop :=
  (field = None /\ v = JStr default) \/
  (exists k, field = Some (JObj k) /\ assoc "en" k = None /\ v = JStr default) \/
  (exists k e, field = Some (JObj k) /\ assoc "en" k = Some (JObj e) /\
               assoc "value" e = None /\ v = JStr default) \/
  (exists k e, field = Some (JObj k) /\ assoc "en" k = Some (JObj e) /\
               assoc "value" e = Some v).

(** X2: [get_entity_metadata] makes exactly one request; it returns the
    id with the English label and description, each of the two falling
    back on its own default ("No label found", "No description found")
    when its field, the field's "en" entry or that entry's "value" is
    missing, whatever the other field holds; it answers "Entity <id> not
    found" when the response lacks the entity, and turns a failed request
    into an error record. *)
Theorem get_entity_metadata_outcomes b entity_id log :
  snd (get_entity_metadata b entity_id log) = app log [get_entity_metadata_request entity_id] /\
  (forall kvs ekvs ent label description,
     b (List.length log) (get_entity_metadata_request entity_id) = HttpJson (JObj kvs) ->
     assoc "entities" kvs = Some (JObj ekvs) ->
     assoc entity_id ekvs = Some (JObj ent) ->
     en_field_value (assoc "labels" ent) "No label found" label ->
     en_field_value (assoc "descriptions" ent) "No description found" description ->
     fst (get_entity_metadata b entity_id log)
     = Ok (JObj [("id", JStr entity_id); ("label", label); ("description", description)])) /\
  (forall kvs,
     b (List.length log) (get_entity_metadata_request entity_id) = HttpJson (JObj kvs) ->
     (assoc "entities" kvs = None \/
      exists ekvs, assoc "entities" kvs = Some (JObj ekvs) /\ assoc entity_id ekvs = None) ->
     fst (get_entity_metadata b entity_id log)
     = Ok (JObj [("error", JStr ("Entity " ++ entity_id ++ " not found"))])) /\
  (forall m,
     b (List.length log) (get_entity_metadata_request entity_id) = HttpRaised m ->
     fst (get_entity_metadata b entity_id log)
     = Ok (JObj [("error", JStr ("Error retrieving entity metadata: " ++ m))])).
Proof.
  split; [apply get_entity_metadata_log|].
  unfold get_entity_metadata, bind, http_get, lift, ret. simpl.
  fold (get_entity_metadata_request entity_id).
  split; [|split].
  - intros kvs ekvs ent label description Hb He Hi Hl Hd.
    rewrite Hb. simpl. rewrite He. simpl. rewrite Hi. simpl.
    clear Hb He Hi.
    destruct Hl as [[Hl1 ->]|[[k [Hl1 [Hl2 ->]]]|[[k [e [Hl1 [Hl2 [Hl3 ->]]]]]|
                    [k [e [Hl1 [Hl2 Hl3]]]]]]];
    destruct Hd as [[Hd1 ->]|[[k' [Hd1 [Hd2 ->]]]|[[k' [e' [Hd1 [Hd2 [Hd3 ->]]]]]|
                    [k' [e' [Hd1 [Hd2 Hd3]]]]]]];
    repeat (match goal with H : assoc _ _ = _ |- _ => rewrite H; clear H end; simpl);
    reflexivity.
  - intros kvs Hb [He|[ekvs [He Hi]]]; rewrite Hb; simpl; rewrite He; simpl; [reflexivity|].
    rewrite Hi. reflexivity.
  - intros m Hb. rewrite Hb. reflexivity.
Qed.

(** A response whose entity has an English label and no descriptions. *)
Definition label_only_entity : list (string * json) :=
  [("labels", JObj [("en", JObj [("language", JStr "en"); ("value", JStr "Douglas Adams")])])].

Definition label_only_backend (n : nat) (r : http_request) : http_response :=
  HttpJson (JObj [("entities", JObj [("Q42", JObj label_only_entity)])]).

Lemma get_entity_metadata_outcomes_witness :
  fst (get_entity_metadata label_only_backend "Q42" [])
  = Ok (JObj [("id", JStr "Q42"); ("label", JStr "Douglas Adams");
              ("description", JStr "No description found")]).
Proof.
  apply (proj1 (proj2 (get_entity_metadata_outcomes label_only_backend "Q42" [])))
    with (kvs := [("entities", JObj [("Q42", JObj label_only_entity)])])
         (ekvs := [("Q42", JObj label_only_entity)])
         (ent := label_only_entity); [reflexivity|reflexivity|reflexivity| |].
  - right. right. right.
    exists [("en", JObj [("language", JStr "en"); ("value", JStr "Douglas Adams")])],
           [("language", JStr "en"); ("value", JStr "Douglas Adams")].
    split; [reflexivity|]. split; reflexivity.
  - left. split; reflexivity.
Defined.

(** X3: [execute_sparql] never raises. It makes the SPARQLWrapper request
    and, only when that attempt fails, one [requests] fallback request; a
    first response carrying [results.bindings] is returned serialised,
    with no second request. *)
Theorem execute_sparql_requests b dumps q log :
  (exists s, fst (execute_sparql b dumps q log) = Ok s) /\
  (snd (execute_sparql b dumps q log) = app log [sparql_wrapper_request q] \/
   snd (execute_sparql b dumps q log)
   = app log [sparql_wrapper_request q; sparql_requests_request q]) /\
  (forall results rs bs,
     b (List.length log) (sparql_wrapper_request q) = HttpJson results ->
     getitem results (JStr "results") = Ok rs ->
     getitem rs (JStr "bindings") = Ok bs ->
     execute_sparql b dumps q log = (Ok (dumps bs), app log [sparql_wrapper_request q])).
Proof.
  assert (Hshape :
    (exists s, execute_sparql b dumps q log = (Ok s, app log [sparql_wrapper_request q])) \/
    (exists s, execute_sparql b dumps q log
               = (Ok s, app log [sparql_wrapper_request q; sparql_requests_request q]))).
  { unfold execute_sparql. simpl. unfold catch, bind, http_get. simpl.
    fold (sparql_wrapper_request q).
    destruct (b (List.length log) (sparql_wrapper_request q)) as [m|results]; simpl.
    - right. destruct (execute_sparql_with_requests_shape b dumps q
                         (app log [sparql_wrapper_request q])) as [s Hs].
      rewrite Hs, <- app_assoc. eexists. reflexivity.
    - pose proof (dump_bindings_pure dumps results (app log [sparql_wrapper_request q])) as Hp.
      destruct (dump_bindings dumps results _) as [[s|e] l]; simpl in Hp; subst l.
      + left. eexists. reflexivity.
      + right. destruct (execute_sparql_with_requests_shape b dumps q
                           (app log [sparql_wrapper_request q])) as [s Hs].
        rewrite Hs, <- app_assoc. eexists. reflexivity. }
  split; [|split].
  - destruct Hshape as [[s Hs]|[s Hs]]; exists s; rewrite Hs; reflexivity.
  - destruct Hshape as [[s Hs]|[s Hs]]; rewrite Hs; [left|right]; reflexivity.
  - intros results rs bs Hb Hr Hbs. unfold execute_sparql. simpl. unfold catch, bind, http_get.
    simpl. fold (sparql_wrapper_request q). rewrite Hb. simpl.
    unfold dump_bindings, bind, lift, ret. rewrite Hr, Hbs. reflexivity.
Qed.

Definition einstein_bindings : json :=
  JArr [JObj [("item", JObj [("type", JStr "uri");
                             ("value", JStr "http://www.wikidata.org/entity/Q937")])]].

Definition einstein_sparql_backend (n : nat) (r : http_request) : http_response :=
  HttpJson (JObj [("results", JObj [("bindings", einstein_bindings)])]).

Lemma execute_sparql_requests_witness :
  execute_sparql einstein_sparql_backend (fun _ => "[...]") "SELECT ?item WHERE { ?item wdt:P31 wd:Q5 }" []
  = (Ok "[...]", [sparql_wrapper_request "SELECT ?item WHERE { ?item wdt:P31 wd:Q5 }"]).
Proof.
  apply (proj2 (proj2 (execute_sparql_requests einstein_sparql_backend (fun _ => "[...]")
           "SELECT ?item WHERE { ?item wdt:P31 wd:Q5 }" [])))
    with (results := JObj [("results", JObj [("bindings", einstein_bindings)])])
         (rs := JObj [("bindings", einstein_bindings)]) (bs := einstein_bindings);
    reflexivity.
Defined.

(** X4: when both attempts fail, [execute_sparql] still returns: a JSON
    error object naming the second failure and carrying the query as the
    caller wrote it, without the added prefixes. *)
Theorem execute_sparql_both_fail b dumps q log m1 m2 :
  b (List.length log) (sparql_wrapper_request q) = HttpRaised m1 ->
  b (S (List.length log)) (sparql_requests_request q) = HttpRaised m2 ->
  exists error_type tb,
    execute_sparql b dumps q log
    = (Ok (dumps (JObj [("error", JStr ("Error executing query with requests: " ++ m2));
                        ("query", JStr q);
                        ("error_type", JStr error_type);
                        ("traceback", JStr tb)])),
       app log [sparql_wrapper_request q; sparql_requests_request q]).
Proof.
  intros H1 H2. unfold execute_sparql. simpl. unfold catch, bind, http_get. simpl.
  fold (sparql_wrapper_request q). rewrite H1. simpl.
  unfold execute_sparql_with_requests, catch, bind, http_get. simpl.
  fold (sparql_requests_request q). rewrite length_app_one, H2. simpl.
  rewrite <- app_assoc. do 2 eexists. reflexivity.
Qed.

Definition unreachable_backend (n : nat) (r : http_request) : http_response :=
  HttpRaised "Connection refused".

Lemma execute_sparql_both_fail_witness :
    execute_sparql unreachable_backend (fun _ => "{...}") "SELECT ?x WHERE { ?x wdt:P31 wd:Q5 }" []
    = (Ok "{...}", [sparql_wrapper_request "SELECT ?x WHERE { ?x wdt:P31 wd:Q5 }";
                    sparql_requests_request "SELECT ?x WHERE { ?x wdt:P31 wd:Q5 }"]).
Proof.
  destruct (execute_sparql_both_fail unreachable_backend (fun _ => "{...}")
              "SELECT ?x WHERE { ?x wdt:P31 wd:Q5 }" [] "Connection refused" "Connection refused"
              eq_refl eq_refl) as [et [tb H]].
  exact H.
Defined.

(** X5: adding the default prefixes is idempotent: a query that already
    went through the prefix step is sent unchanged by a second one. *)
Theorem full_query_idempotent q : full_query (full_query q) = full_query q.
Proof.
  assert (Heq : forall x, full_query x
                = if str_in "PREFIX" x || str_in "prefix" x then x else sparql_prefixes ++ x).
  { intros x. unfold full_query. simpl. rewrite orb_false_r.
    destruct (str_in "PREFIX" x || str_in "prefix" x); reflexivity. }
  rewrite (Heq q). destruct (str_in "PREFIX" q || str_in "prefix" q) eqn:E.
  - rewrite Heq, E. reflexivity.
  - rewrite Heq.
    assert (H : str_in "PREFIX" (sparql_prefixes ++ q) = true)
      by (apply str_in_app_l; vm_compute; reflexivity).
    rewrite H. reflexivity.
Qed.

(** ** Values the client returns *)

(** Every value [m] returns satisfies [P]. *)
Definition returns {A} (P : A -> Prop) (m : M A) : Prop :=
  forall log v, fst (m log) = Ok v -> P v.

Lemma ret_returns {A} (P : A -> Prop) a : P a -> returns P (ret a).
Proof. intros H log v E. injection E as <-. exact H. Qed.

Lemma raise_returns {A} (P : A -> Prop) e : returns P (@raise A e).
Proof. intros log v E. discriminate. Qed.

Lemma bind_returns {A B} (P : B -> Prop) (m : M A) (k : A -> M B) :
  (forall a, returns P (k a)) -> returns P (bind m k).
Proof.
  intros Hk log v. unfold bind.
  destruct (m log) as [[a|e] l]; [apply Hk|discriminate].
Qed.

Lemma catch_returns {A} (P : A -> Prop) (m : M A) (h : exn -> M A) :
  returns P m -> (forall e, returns P (h e)) -> returns P (catch m h).
Proof.
  intros Hm Hh log v. unfold catch. specialize (Hm log).
  destruct (m log) as [[a|e] l]; simpl; [intros E; injection E as <-; apply (Hm a); reflexivity|].
  apply Hh.
Qed.

Definition is_obj (j : json) : Prop := exists kvs, j = JObj kvs.

Lemma get_entity_metadata_returns_obj b entity_id :
  returns is_obj (get_entity_metadata b entity_id).
Proof.
  unfold get_entity_metadata. apply bind_returns. intros [m|data].
  - apply ret_returns. eexists. reflexivity.
  - apply bind_returns. intros c. apply bind_returns. intros cond.
    destruct cond.
    + repeat (apply bind_returns; intro). apply ret_returns. eexists. reflexivity.
    + apply ret_returns. eexists. reflexivity.
Qed.

(** What [execute_sparql] returns is always the output of [json.dumps]. *)
Lemma execute_sparql_returns_dumps b dumps q :
  returns (fun s => exists j, s = dumps j) (execute_sparql b dumps q).
Proof.
  assert (Hd : forall results, returns (fun s => exists j, s = dumps j) (dump_bindings dumps results)).
  { intros results. unfold dump_bindings. repeat (apply bind_returns; intro).
    apply ret_returns. eexists. reflexivity. }
  assert (Hw : returns (fun s => exists j, s = dumps j) (execute_sparql_with_requests b dumps q)).
  { unfold execute_sparql_with_requests. apply catch_returns.
    - apply bind_returns. intros [m|results]; [apply raise_returns|apply Hd].
    - intros e. apply ret_returns. eexists. reflexivity. }
  unfold execute_sparql. simpl. apply catch_returns; [|intros; exact Hw].
  apply bind_returns. intros [m|results]; [apply raise_returns|apply Hd].
Qed.

Lemma pure_sends {A} P (m : M A) : pure m -> sends_only P m.
Proof. intros H log. exists []. rewrite app_nil_r. auto. Qed.

Lemma sends_only_true {A} P (m : M A) : sends_only P m -> sends_only (fun _ => True) m.
Proof.
  intros H log. destruct (H log) as [s [E F]]. exists s. split; [exact E|].
  apply Forall_forall. auto.
Qed.

(** X6: the server_sse [get_wikidata_properties] tool never raises when
    [json.loads] accepts what [json.dumps] writes: a failed query comes
    back as the JSON text of the error object. On success it returns the
    re-serialised bindings, after one request carrying the prefixed
    entity query. *)
Theorem sse_get_wikidata_properties_outcomes b dumps loads entity_id log :
  ((forall j, exists j', loads (dumps j) = Some j') ->
   exists s, fst (ServerSse.get_wikidata_properties b dumps loads entity_id log) = Ok s) /\
  (forall results rs bs j,
     b (List.length log) (sparql_wrapper_request (entity_properties_query entity_id))
       = HttpJson results ->
     getitem results (JStr "results") = Ok rs ->
     getitem rs (JStr "bindings") = Ok bs ->
     loads (dumps bs) = Some j ->
     ServerSse.get_wikidata_properties b dumps loads entity_id log
     = (Ok (dumps j), app log [sparql_wrapper_request (entity_properties_query entity_id)])).
Proof.
  split.
  - intros Hrt. unfold ServerSse.get_wikidata_properties, get_entity_properties, bind.
    pose proof (execute_sparql_returns_dumps b dumps (entity_properties_query entity_id) log) as Hd.
    destruct (proj1 (execute_sparql_requests b dumps (entity_properties_query entity_id) log))
      as [s Hs].
    destruct (execute_sparql b dumps (entity_properties_query entity_id) log) as [r l].
    simpl in Hs. subst r. destruct (Hd s eq_refl) as [j0 ->].
    destruct (Hrt j0) as [j' Ej]. rewrite Ej. eexists. reflexivity.
  - intros results rs bs j Hb Hr Hbs Hj.
    unfold ServerSse.get_wikidata_properties, get_entity_properties, bind.
    rewrite (proj2 (proj2 (execute_sparql_requests b dumps _ log)) results rs bs Hb Hr Hbs).
    rewrite Hj. reflexivity.
Qed.

Lemma sse_get_wikidata_properties_outcomes_witness :
  ServerSse.get_wikidata_properties einstein_sparql_backend (fun _ => "[...]")
    (fun _ => Some einstein_bindings) "Q937" []
  = (Ok "[...]", [sparql_wrapper_request (entity_properties_query "Q937")]).
Proof.
  apply (proj2 (sse_get_wikidata_properties_outcomes einstein_sparql_backend (fun _ => "[...]")
           (fun _ => Some einstein_bindings) "Q937" []))
    with (results := JObj [("results", JObj [("bindings", einstein_bindings)])])
         (rs := JObj [("bindings", einstein_bindings)]) (bs := einstein_bindings)
         (j := einstein_bindings);
    reflexivity.
Defined.

(** X7: the render_server [get_wikidata_metadata] tool never returns a
    result: [get_entity_metadata] answers with a dict, and slicing it for
    the log line raises. Its one metadata request is still made. *)
Theorem render_get_wikidata_metadata_raises b entity_id log :
  snd (RenderServer.get_wikidata_metadata b entity_id log)
    = app log [get_entity_metadata_request entity_id] /\
  exists e, fst (RenderServer.get_wikidata_metadata b entity_id log) = Raise e.
Proof.
  unfold RenderServer.get_wikidata_metadata, bind.
  pose proof (get_entity_metadata_log b entity_id log) as Hl.
  pose proof (get_entity_metadata_returns_obj b entity_id log) as Ho.
  destruct (get_entity_metadata b entity_id log) as [[v|e] l]; simpl in Hl |- *; subst l.
  - destruct (Ho v eq_refl) as [kvs ->]. simpl. split; [reflexivity|]. eexists. reflexivity.
  - split; [reflexivity|]. eexists. reflexivity.
Qed.



(** ** The find_entity_facts tool *)

Lemma bind_ok {A B} (m : M A) (k : A -> M B) log a l :
  m log = (Ok a, l) -> bind m k log = k a l.
Proof. intros E. unfold bind. rewrite E. reflexivity. Qed.

Lemma search_entity_hit b q log kvs rkvs rs v :
  b (List.length log) (search_entity_request q) = HttpJson (JObj kvs) ->
  assoc "search" kvs = Some (JArr (JObj rkvs :: rs)) ->
  assoc "id" rkvs = Some v ->
  search_entity b q log = (Ok v, app log [search_entity_request q]).
Proof.
  intros Hb Hs Hid. pose proof (search_entity_log b q log) as Hl.
  destruct (search_entity b q log) as [r l] eqn:E. simpl in Hl. subst l. f_equal.
  change r with (fst (r, app log [search_entity_request q])). rewrite <- E.
  unfold search_entity, bind, http_get, lift, ret. simpl. rewrite Hb. simpl. rewrite Hs. simpl.
  rewrite Hid. reflexivity.
Qed.

Lemma search_entity_miss b q log kvs :
  b (List.length log) (search_entity_request q) = HttpJson (JObj kvs) ->
  assoc "search" kvs = None \/ assoc "search" kvs = Some (JArr []) ->
  search_entity b q log = (Ok (JStr "No entity found"), app log [search_entity_request q]).
Proof.
  intros Hb Hs. pose proof (search_entity_log b q log) as Hl.
  destruct (search_entity b q log) as [r l] eqn:E. simpl in Hl. subst l. f_equal.
  change r with (fst (r, app log [search_entity_request q])). rewrite <- E.
  unfold search_entity, bind, http_get, lift, ret. simpl. rewrite Hb. simpl.
  destruct Hs as [Hs|Hs]; rewrite Hs; reflexivity.
Qed.

Lemma search_entity_failed b q log m :
  b (List.length log) (search_entity_request q) = HttpRaised m ->
  search_entity b q log
  = (Ok (JStr ("Error searching for entity: " ++ m)), app log [search_entity_request q]).
Proof.
  intros Hb. unfold search_entity, bind, http_get. simpl. rewrite Hb. reflexivity.
Qed.

Lemma search_property_miss b q log kvs :
  b (List.length log) (search_property_request q) = HttpJson (JObj kvs) ->
  assoc "search" kvs = None \/ assoc "search" kvs = Some (JArr []) ->
  search_property b q log = (Ok (JStr "No property found"), app log [search_property_request q]).
Proof.
  intros Hb Hs. pose proof (search_property_log b q log) as Hl.
  destruct (search_property b q log) as [r l] eqn:E. simpl in Hl. subst l. f_equal.
  change r with (fst (r, app log [search_property_request q])). rewrite <- E.
  unfold search_property, bind, http_get, lift, ret. simpl. rewrite Hb. simpl.
  destruct Hs as [Hs|Hs]; rewrite Hs; reflexivity.
Qed.

Lemma search_property_extends b q : sends_only (fun _ => True) (search_property b q).
Proof. intros log. exists [search_property_request q]. rewrite search_property_log. auto. Qed.

Lemma report_facts_extends b dumps loads pso entity_id metadata pn pid :
  sends_only (fun _ => True) (ServerSse.report_facts b dumps loads pso entity_id metadata pn pid).
Proof.
  unfold ServerSse.report_facts. apply bind_sends.
  - apply (sends_only_true _ _ (sends_some_only _ _ (execute_sparql_sends b dumps _))).
  - intros. apply ret_sends.
Qed.

(** X9: [find_entity_facts] for a name the entity search does not find
    answers the "No entity found for '<name>'" error object after that
    one search request, without looking up metadata or running a query. *)
Theorem find_entity_facts_no_entity b dumps loads pso name pn log kvs :
  b (List.length log) (search_entity_request name) = HttpJson (JObj kvs) ->
  assoc "search" kvs = None \/ assoc "search" kvs = Some (JArr []) ->
  ServerSse.find_entity_facts b dumps loads pso name pn log
  = (Ok (dumps (ServerSse.error_record ("No entity found for '" ++ name ++ "'"))),
     app log [search_entity_request name]).
Proof.
  intros Hb Hs. unfold ServerSse.find_entity_facts.
  rewrite (bind_ok _ _ _ _ _ (search_entity_miss b name log kvs Hb Hs)). reflexivity.
Qed.

Definition no_hit_backend (n : nat) (r : http_request) : http_response :=
  HttpJson (JObj [("searchinfo", JObj [("search", JStr "Qwxyzzy")]); ("search", JArr [])]).

Lemma find_entity_facts_no_entity_witness :
  ServerSse.find_entity_facts no_hit_backend (fun _ => "{...}") (fun _ => None) (fun _ => "")
    "Qwxyzzy" None []
  = (Ok "{...}", [search_entity_request "Qwxyzzy"]).
Proof.
  apply (find_entity_facts_no_entity no_hit_backend (fun _ => "{...}") (fun _ => None)
           (fun _ => "") "Qwxyzzy" None []
           [("searchinfo", JObj [("search", JStr "Qwxyzzy")]); ("search", JArr [])]);
    [reflexivity|right; reflexivity].
Defined.

(** X10: when the entity search request fails, [find_entity_facts] does
    not stop: the error text "Error searching for entity: ..." is taken
    as the entity id, and the next request is a metadata lookup for it. *)
Theorem find_entity_facts_search_error b dumps loads pso name pn log m :
  b (List.length log) (search_entity_request name) = HttpRaised m ->
  exists rest,
    snd (ServerSse.find_entity_facts b dumps loads pso name pn log)
    = app log (search_entity_request name
               :: get_entity_metadata_request ("Error searching for entity: " ++ m) :: rest).
Proof.
  intros Hb. unfold ServerSse.find_entity_facts.
  rewrite (bind_ok _ _ _ _ _ (search_entity_failed b name log m Hb)).
  assert (Hne : is_str "No entity found" (JStr ("Error searching for entity: " ++ m)) = false)
    by reflexivity.
  rewrite Hne. unfold ServerSse.py_str.
  pose proof (get_entity_metadata_log b ("Error searching for entity: " ++ m)
                (app log [search_entity_request name])) as Hl.
  unfold bind at 1.
  destruct (get_entity_metadata b _ _) as [[md|e] l]; simpl in Hl; subst l.
  - match goal with |- exists rest, snd (?k ?l0) = _ =>
      assert (Hk : sends_only (fun _ => True) k);
      [|destruct (Hk l0) as [sent [E _]]; exists sent; rewrite E] end.
    { destruct pn as [pn0|]; [destruct (negb (String.eqb pn0 ""))|]; try apply report_facts_extends.
      apply bind_sends; [apply search_property_extends|].
      intros pid. destruct (is_str "No property found" pid); [apply ret_sends|apply report_facts_extends]. }
    rewrite <- !app_assoc. reflexivity.
  - exists []. rewrite <- app_assoc. reflexivity.
Qed.

Lemma find_entity_facts_search_error_witness :
  exists rest,
    snd (ServerSse.find_entity_facts unreachable_backend (fun _ => "{...}") (fun _ => None)
           (fun _ => "") "Albert Einstein" None [])
    = search_entity_request "Albert Einstein"
      :: get_entity_metadata_request "Error searching for entity: Connection refused" :: rest.
Proof.
  exact (find_entity_facts_search_error unreachable_backend (fun _ => "{...}") (fun _ => None)
           (fun _ => "") "Albert Einstein" None [] "Connection refused" eq_refl).
Defined.

(** X11: when a property name is given and the property search finds
    nothing, [find_entity_facts] answers the entity's metadata with a
    "No property found for '<name>'" error after exactly three requests
    (entity search, metadata, property search): no query is run. *)
Theorem find_entity_facts_no_property b dumps loads pso name pn log kvs rkvs rs e md pkvs :
  b (List.length log) (search_entity_request name) = HttpJson (JObj kvs) ->
  assoc "search" kvs = Some (JArr (JObj rkvs :: rs)) ->
  assoc "id" rkvs = Some (JStr e) ->
  e <> "No entity found" ->
  fst (get_entity_metadata b e (app log [search_entity_request name])) = Ok md ->
  pn <> "" ->
  b (S (S (List.length log))) (search_property_request pn) = HttpJson (JObj pkvs) ->
  assoc "search" pkvs = None \/ assoc "search" pkvs = Some (JArr []) ->
  ServerSse.find_entity_facts b dumps loads pso name (Some pn) log
  = (Ok (dumps (JObj [("entity", md);
                      ("error", JStr ("No property found for '" ++ pn ++ "'"))])),
     app log [search_entity_request name; get_entity_metadata_request e;
              search_property_request pn]).
Proof.
  intros Hb Hs Hid He Hmd Hpn Hp Hps. unfold ServerSse.find_entity_facts.
  rewrite (bind_ok _ _ _ _ _ (search_entity_hit b name log kvs rkvs rs (JStr e) Hb Hs Hid)).
  unfold is_str at 1. rewrite (proj2 (String.eqb_neq _ _) (not_eq_sym He)).
  unfold ServerSse.py_str.
  pose proof (get_entity_metadata_log b e (app log [search_entity_request name])) as Hl.
  destruct (get_entity_metadata b e (app log [search_entity_request name])) as [r l] eqn:Em.
  simpl in Hl, Hmd. subst l r.
  rewrite (bind_ok _ _ _ _ _ Em).
  rewrite (proj2 (String.eqb_neq pn "") Hpn). cbn [negb].
  assert (Hlen : List.length (app (app log [search_entity_request name])
                                  [get_entity_metadata_request e]) = S (S (List.length log)))
    by (rewrite !length_app_one; reflexivity).
  rewrite <- Hlen in Hp.
  rewrite (bind_ok _ _ _ _ _ (search_property_miss b pn _ pkvs Hp Hps)).
  simpl. rewrite <- !app_assoc. reflexivity.
Qed.

(** A backend answering, in turn, the entity search, the metadata lookup
    and an empty property search. *)
Definition facts_backend (n : nat) (r : http_request) : http_response :=
  match n with
  | 0 => einstein_backend n r
  | 1 => einstein_metadata_backend n r
  | _ => HttpJson (JObj [("search", JArr [])])
  end.

Lemma find_entity_facts_no_property_witness :
  ServerSse.find_entity_facts facts_backend (fun _ => "{...}") (fun _ => None) (fun _ => "")
    "Albert Einstein" (Some "favourite colour") []
  = (Ok "{...}", [search_entity_request "Albert Einstein"; get_entity_metadata_request "Q937";
                  search_property_request "favourite colour"]).
Proof.
  apply (find_entity_facts_no_property facts_backend (fun _ => "{...}") (fun _ => None)
           (fun _ => "") "Albert Einstein" "favourite colour" []
           [("search", JArr [JObj [("id", JStr "Q937"); ("label", JStr "Albert Einstein")]])]
           [("id", JStr "Q937"); ("label", JStr "Albert Einstein")] [] "Q937"
           (JObj [("id", JStr "Q937"); ("label", JStr "Albert Einstein");
                  ("description", JStr "physicist")])
           [("search", JArr [])]);
    try reflexivity; try discriminate; right; reflexivity.
Defined.

(** ** The session registry of server_sse.py *)

Lemma assoc_set_item_other {A} k k' (v : A) d :
  k' <> k -> assoc k' (set_item k v d) = assoc k' d.
Proof.
  intros Hne. induction d as [|[k0 v0] d IH]; simpl.
  - destruct (String.eqb_spec k' k); congruence.
  - destruct (String.eqb_spec k k0) as [->|Hk]; simpl.
    + destruct (String.eqb_spec k' k0); congruence.
    + destruct (String.eqb k' k0); [reflexivity|exact IH].
Qed.

Lemma map_fst_set_item_mem {A} k (v : A) d :
  mem k d = true -> map fst (set_item k v d) = map fst d.
Proof.
  unfold mem. induction d as [|[k0 v0] d IH]; simpl; [discriminate|].
  destruct (String.eqb_spec k k0) as [->|Hk]; simpl.
  - reflexivity.
  - intros H. rewrite (IH H). reflexivity.
Qed.

Lemma assoc_None_not_in {A} k (d : list (string * A)) :
  assoc k d = None -> ~ In k (map fst d).
Proof.
  induction d as [|[k0 v0] d IH]; simpl; [auto|].
  destruct (String.eqb_spec k k0) as [->|Hk]; [discriminate|].
  intros H [E|E]; [congruence|exact (IH H E)].
Qed.

Lemma map_fst_set_item_new {A} k (v : A) d :
  assoc k d = None -> map fst (set_item k v d) = app (map fst d) [k].
Proof.
  induction d as [|[k0 v0] d IH]; simpl; [reflexivity|].
  destruct (String.eqb_spec k k0) as [->|Hk]; [discriminate|].
  intros H. simpl. rewrite (IH H). reflexivity.
Qed.

Lemma set_item_nodup {A} k (v : A) d :
  NoDup (map fst d) -> NoDup (map fst (set_item k v d)).
Proof.
  intros Hd. destruct (assoc k d) eqn:E.
  - rewrite map_fst_set_item_mem; [exact Hd|unfold mem; rewrite E; reflexivity].
  - rewrite (map_fst_set_item_new _ _ _ E). apply NoDup_app; auto using NoDup_cons, NoDup_nil.
    intros x Hx [<-|[]]. exact (assoc_None_not_in _ _ E Hx).
Qed.

Lemma not_in_assoc_None {A} k (d : list (string * A)) :
  ~ In k (map fst d) -> assoc k d = None.
Proof.
  induction d as [|[k0 v0] d IH]; simpl; [auto|].
  destruct (String.eqb_spec k k0) as [->|Hk]; [intros H; exfalso; auto|].
  intros H. apply IH. auto.
Qed.

Lemma assoc_del_item_other {A} k k' (d : list (string * A)) :
  k' <> k -> assoc k' (del_item k d) = assoc k' d.
Proof.
  intros Hne. induction d as [|[k0 v0] d IH]; simpl; [reflexivity|].
  destruct (String.eqb_spec k k0) as [->|Hk]; simpl.
  - destruct (String.eqb_spec k' k0); congruence.
  - destruct (String.eqb k' k0); [reflexivity|exact IH].
Qed.

Lemma del_item_nodup {A} k (d : list (string * A)) :
  NoDup (map fst d) -> NoDup (map fst (del_item k d)) /\ assoc k (del_item k d) = None.
Proof.
  induction d as [|[k0 v0] d IH]; simpl; [auto using NoDup_nil|].
  intros Hd. inversion Hd as [|x l Hnin Hd']; subst.
  destruct (String.eqb_spec k k0) as [->|Hk]; simpl.
  - split; [exact Hd'|exact (not_in_assoc_None _ _ Hnin)].
  - destruct (IH Hd') as [H1 H2]. split.
    + constructor; [|exact H1]. intros Hin. apply Hnin.
      clear -Hin. induction d as [|[k1 v1] d IH]; simpl in *; [exact Hin|].
      destruct (String.eqb k k1); simpl in *; [right; exact Hin|].
      destruct Hin as [E|E]; [left; exact E|right; exact (IH E)].
    + destruct (String.eqb_spec k k0); [congruence|exact H2].
Qed.

Lemma del_if_present_spec sid (d : ServerSse.sessions) :
  NoDup (map fst d) ->
  NoDup (map fst (ServerSse.del_if_present sid d)) /\
  assoc sid (ServerSse.del_if_present sid d) = None /\
  (forall k, k <> sid -> assoc k (ServerSse.del_if_present sid d) = assoc k d).
Proof.
  intros Hd. unfold ServerSse.del_if_present, mem.
  destruct (assoc sid d) eqn:E.
  - destruct (del_item_nodup sid d Hd) as [H1 H2].
    split; [exact H1|split; [exact H2|]]. intros k Hk. apply assoc_del_item_other; exact Hk.
  - auto.
Qed.

(** X12: [sse_endpoint] in server_sse.py reuses the session named by a
    non-empty [session_id] query parameter that is registered, refreshing
    only its [last_activity] and adding no key; otherwise it registers the
    fresh id with a new entry. No other session's entry changes, and the
    registry keeps distinct keys. *)
Theorem sse_endpoint_open_registry act qp host now fresh :
  let r := ServerSse.sse_endpoint_open act qp host now fresh in
  (forall k, k <> fst r -> assoc k (snd r) = assoc k act) /\
  (NoDup (map fst act) -> NoDup (map fst (snd r))) /\
  ((exists s m0, qp_get "session_id" qp = Some s /\ s <> "" /\ assoc s act = Some m0 /\
       fst r = s /\ assoc s (snd r) = Some (ServerSse.set_last_activity now m0) /\
       map fst (snd r) = map fst act)
   \/ ((forall s, qp_get "session_id" qp = Some s -> s = "" \/ assoc s act = None) /\
       fst r = fresh /\ assoc fresh (snd r) = Some (ServerSse.sse_new_session host now))).
Proof.
  cbv zeta. unfold ServerSse.sse_endpoint_open.
  assert (Hnew : (forall k, k <> fresh ->
                    assoc k (set_item fresh (ServerSse.sse_new_session host now) act) = assoc k act) /\
                 (NoDup (map fst act) ->
                    NoDup (map fst (set_item fresh (ServerSse.sse_new_session host now) act)))).
  { split; [intros k Hk; apply assoc_set_item_other; exact Hk|apply set_item_nodup]. }
  destruct (qp_get "session_id" qp) as [s|] eqn:Eq.
  - destruct (String.eqb_spec s "") as [Hs|Hs]; simpl.
    + split; [apply Hnew|split; [apply Hnew|right]].
      split; [intros s' E; injection E as <-; left; exact Hs|split; [reflexivity|apply assoc_set_item_same]].
    + unfold mem. destruct (assoc s act) as [m0|] eqn:Ea; simpl.
      * split; [intros k Hk; apply assoc_set_item_other; exact Hk|].
        split; [apply set_item_nodup|left].
        exists s, m0. repeat split; auto using assoc_set_item_same.
        apply map_fst_set_item_mem. unfold mem. rewrite Ea. reflexivity.
      * split; [apply Hnew|split; [apply Hnew|right]].
        split; [intros s' E; injection E as <-; right; exact Ea|split; [reflexivity|apply assoc_set_item_same]].
  - split; [apply Hnew|split; [apply Hnew|right]].
    split; [intros s' E; discriminate|split; [reflexivity|apply assoc_set_item_same]].
Qed.

Definition one_session : ServerSse.sessions :=
  [("s-1", ServerSse.sse_new_session "10.0.0.1" "2025-01-01T00:00:00")].

Lemma sse_endpoint_open_registry_witness :
  assoc "s-1" (snd (ServerSse.sse_endpoint_open one_session [("session_id", "s-1")]
                      "10.0.0.2" "2025-01-01T00:05:00" "s-2"))
  = Some (ServerSse.set_last_activity "2025-01-01T00:05:00"
            (ServerSse.sse_new_session "10.0.0.1" "2025-01-01T00:00:00")).
Proof.
  destruct (sse_endpoint_open_registry one_session [("session_id", "s-1")]
              "10.0.0.2" "2025-01-01T00:05:00" "s-2") as [_ [_ [H|[H _]]]].
  - destruct H as [s [m0 [Eq [_ [Ea [_ [Hs _]]]]]]].
    injection Eq as <-. injection Ea as <-. exact Hs.
  - exfalso. destruct (H "s-1" eq_refl) as [E|E]; discriminate.
Defined.

(** X13: however the MCP run of server_sse.py's [sse_endpoint] ends
    (normally, by a [RuntimeError], by another exception or by
    cancellation), its session is no longer registered afterwards, every
    other session keeps its entry, and the keys stay distinct. *)
Theorem sse_endpoint_exit_unregisters act session_id e :
  NoDup (map fst act) ->
  let act' := snd (ServerSse.sse_endpoint_exit act session_id e) in
  assoc session_id act' = None /\
  (forall k, k <> session_id -> assoc k act' = assoc k act) /\
  NoDup (map fst act').
Proof.
  intros Hd. cbv zeta.
  destruct (del_if_present_spec session_id act Hd) as [H1 [H2 H3]].
  destruct (del_if_present_spec session_id _ H1) as [H1' [H2' H3']].
  destruct e; simpl; repeat split; auto.
  - intros k Hk. rewrite H3'; auto.
  - intros k Hk. rewrite H3'; auto.
Qed.

Definition registry_pair : ServerSse.sessions :=
  [("s-1", ServerSse.sse_new_session "10.0.0.1" "2025-01-01T00:00:00");
   ("s-2", ServerSse.sse_new_session "10.0.0.2" "2025-01-01T00:01:00")].

Lemma sse_endpoint_exit_unregisters_witness :
  assoc "s-1" (snd (ServerSse.sse_endpoint_exit registry_pair "s-1" ServerSse.ExitRuntimeError)) = None /\
  assoc "s-2" (snd (ServerSse.sse_endpoint_exit registry_pair "s-1" ServerSse.ExitRuntimeError))
  = assoc "s-2" registry_pair.
Proof.
  assert (Hd : NoDup (map fst registry_pair)).
  { simpl. constructor; [simpl; intros [E|[]]; discriminate|constructor; [simpl; auto|constructor]]. }
  destruct (sse_endpoint_exit_unregisters registry_pair "s-1" ServerSse.ExitRuntimeError Hd)
    as [H1 [H2 _]].
  split; [exact H1|apply H2; discriminate].
Defined.

(** ** The queues of render_server.py *)

Lemma queues_put w r x r' :
  queues (put w r x) r' = if Nat.eqb r r' then app (queues w r) [x] else queues w r'.
Proof. reflexivity. Qed.

Lemma messages_endpoint_registered w qp body s c :
  qp_get "session_id" qp = Some s -> s <> "" -> assoc s (active_connections w) = Some c ->
  messages_endpoint w qp body = (put w (read_queue c) (Some body), 200).
Proof.
  intros Hq Hs Hc. unfold messages_endpoint. rewrite Hq. unfold falsy.
  rewrite (proj2 (String.eqb_neq s "") Hs). simpl. rewrite Hc. reflexivity.
Qed.

Lemma messages_endpoint_rejected w qp body :
  (forall s, qp_get "session_id" qp = Some s -> s = "" \/ assoc s (active_connections w) = None) ->
  messages_endpoint w qp body = (w, 400).
Proof.
  intros H. unfold messages_endpoint. destruct (qp_get "session_id" qp) as [s|]; [|reflexivity].
  destruct (H s eq_refl) as [->|Hn]; [reflexivity|]. unfold falsy.
  destruct (String.eqb s ""); simpl; [reflexivity|]. rewrite Hn. reflexivity.
Qed.

Lemma post_all_registered w qp bodies s c :
  qp_get "session_id" qp = Some s -> s <> "" -> assoc s (active_connections w) = Some c ->
  let '(w', sts) := post_all w qp bodies in
  sts = repeat 200 (List.length bodies) /\
  active_connections w' = active_connections w /\ next_queue w' = next_queue w /\
  queues w' (read_queue c) = app (queues w (read_queue c)) (map Some bodies) /\
  (forall r, r <> read_queue c -> queues w' r = queues w r).
Proof.
  intros Hq Hs. revert w. induction bodies as [|body rest IH]; intros w Hc; simpl.
  - rewrite app_nil_r. auto.
  - rewrite (messages_endpoint_registered w qp body s c Hq Hs Hc).
    specialize (IH (put w (read_queue c) (Some body)) Hc).
    destruct (post_all (put w (read_queue c) (Some body)) qp rest) as [w2 sts].
    destruct IH as [H1 [H2 [H3 [H4 H5]]]].
    split; [rewrite H1; reflexivity|]. split; [exact H2|]. split; [exact H3|]. split.
    + rewrite H4, queues_put, Nat.eqb_refl, <- app_assoc. reflexivity.
    + intros r Hr. rewrite H5 by exact Hr. rewrite queues_put.
      destruct (Nat.eqb_spec (read_queue c) r); [congruence|reflexivity].
Qed.

(** X14: successive POSTs to render_server.py's [/messages] naming a
    registered session are each answered 200, and their bodies are
    appended to that session's read queue in the order they were posted;
    no other queue and no registry entry changes. *)
Theorem post_all_fifo w qp bodies s c :
  qp_get "session_id" qp = Some s -> s <> "" -> assoc s (active_connections w) = Some c ->
  let '(w', sts) := post_all w qp bodies in
  sts = repeat 200 (List.length bodies) /\
  active_connections w' = active_connections w /\
  queues w' (read_queue c) = app (queues w (read_queue c)) (map Some bodies) /\
  (forall r, r <> read_queue c -> queues w' r = queues w r).
Proof.
  intros Hq Hs Hc. pose proof (post_all_registered w qp bodies s c Hq Hs Hc) as H.
  destruct (post_all w qp bodies) as [w' sts]. tauto.
Qed.

Definition one_stream_world : world :=
  fst (sse_endpoint empty_world "10.0.0.1" "2025-01-01T00:00:00" "s-1").

Lemma post_all_fifo_witness :
  queues (fst (post_all one_stream_world [("session_id", "s-1")] ["m1"; "m2"])) 0
  = [Some "m1"; Some "m2"].
Proof.
  pose proof (post_all_fifo one_stream_world [("session_id", "s-1")] ["m1"; "m2"] "s-1"
                (Conn 0 1 "2025-01-01T00:00:00" "10.0.0.1") eq_refl ltac:(discriminate) eq_refl) as H.
  destruct (post_all one_stream_world [("session_id", "s-1")] ["m1"; "m2"]) as [w' sts].
  destruct H as [_ [_ [H _]]]. exact H.
Defined.

(** X15: a POST to render_server.py's [/messages] without a
    [session_id], with an empty one, or naming no registered session is
    answered 400 and changes nothing: no queue receives the body. *)
Theorem post_all_rejected w qp bodies :
  (forall s, qp_get "session_id" qp = Some s -> s = "" \/ assoc s (active_connections w) = None) ->
  post_all w qp bodies = (w, repeat 400 (List.length bodies)).
Proof.
  intros H. induction bodies as [|body rest IH]; simpl; [reflexivity|].
  rewrite (messages_endpoint_rejected w qp body H), IH. reflexivity.
Qed.

Lemma post_all_rejected_witness :
  post_all one_stream_world [("session_id", "s-9")] ["m1"] = (one_stream_world, [400]).
Proof.
  apply (post_all_rejected one_stream_world [("session_id", "s-9")] ["m1"]).
  intros s E. injection E as <-. right. reflexivity.
Defined.

(** ** The registry invariant of render_server.py *)

Lemma nodup_remove_block {T} (l1 m l2 : list T) :
  NoDup (app l1 (app m l2)) -> NoDup (app l1 l2).
Proof.
  induction m as [|a m IH]; simpl; [auto|].
  intros H. apply IH. exact (NoDup_remove_1 _ _ _ H).
Qed.

Lemma del_item_split {A} k (d : list (string * A)) :
  del_item k d = d \/ exists l1 x l2, d = app l1 (x :: l2) /\ del_item k d = app l1 l2.
Proof.
  induction d as [|[k0 v0] d IH]; simpl; [left; reflexivity|].
  destruct (String.eqb k k0).
  - right. exists [], (k0, v0), d. auto.
  - destruct IH as [->|[l1 [x [l2 [E1 E2]]]]]; [left; reflexivity|].
    right. exists ((k0, v0) :: l1), x, l2. rewrite E2, E1. auto.
Qed.

Lemma set_item_split {A} k (v : A) (d : list (string * A)) :
  set_item k v d = app d [(k, v)] \/
  exists l1 x l2, d = app l1 (x :: l2) /\ set_item k v d = app l1 ((k, v) :: l2).
Proof.
  induction d as [|[k0 v0] d IH]; simpl; [left; reflexivity|].
  destruct (String.eqb k k0).
  - right. exists [], (k0, v0), d. auto.
  - destruct IH as [->|[l1 [x [l2 [E1 E2]]]]]; [left; reflexivity|].
    right. exists ((k0, v0) :: l1), x, l2. rewrite E2, E1. auto.
Qed.

Lemma nodup_insert2 {T} (l1 l2 : list T) a b :
  NoDup (app l1 l2) -> ~ In a (app l1 l2) -> ~ In b (app l1 l2) -> a <> b ->
  NoDup (app l1 (a :: b :: l2)).
Proof.
  intros H Ha Hb Hab.
  apply (Permutation_NoDup (l := a :: b :: app l1 l2)).
  - transitivity (a :: app l1 (b :: l2)).
    + constructor. apply Permutation_middle.
    + apply Permutation_middle.
  - constructor; [simpl; intros [E|E]; [exact (Hab (eq_sym E))|exact (Ha E)]|].
    constructor; assumption.
Qed.

Lemma wf_same_registry w w' :
  active_connections w' = active_connections w -> next_queue w' = next_queue w -> wf w -> wf w'.
Proof. intros E1 E2. unfold wf. rewrite E1, E2. auto. Qed.

Lemma wf_del_item w sid qs :
  wf w -> wf {| active_connections := del_item sid (active_connections w);
                queues := qs; next_queue := next_queue w |}.
Proof.
  unfold wf. simpl. intros [H1 [H2 H3]].
  destruct (del_item_split sid (active_connections w)) as [->|[l1 [x [l2 [E1 E2]]]]]; [auto|].
  rewrite E2. rewrite E1 in H1, H2, H3. split; [|split].
  - rewrite map_app in *. simpl in H1. exact (NoDup_remove_1 _ _ _ H1).
  - rewrite flat_map_app in *. simpl in H2.
    exact (nodup_remove_block _ (queue_refs (snd x)) _ H2).
  - apply Forall_app in H3. destruct H3 as [H3 H4]. inversion H4; subst.
    apply Forall_app; auto.
Qed.

Lemma wf_cleanup w g : wf w -> wf (fst (cleanup w g)).
Proof.
  intros H. unfold cleanup. simpl. destruct (mem (g_session_id g) (active_connections w)).
  - apply wf_del_item. exact H.
  - exact H.
Qed.

Lemma wf_put w r x : wf w -> wf (put w r x).
Proof. apply wf_same_registry; reflexivity. Qed.

Lemma wf_loop_get w g : wf w -> wf (fst (fst (loop_get w g))).
Proof.
  intros H. unfold loop_get.
  destruct (queues w (g_write_queue g)) as [|[m|] rest]; cbn -[cleanup].
  - exact H.
  - apply (wf_same_registry w); auto.
  - match goal with |- context [cleanup ?w1 ?g1] =>
      assert (H' : wf (fst (cleanup w1 g1)))
        by (apply wf_cleanup; apply (wf_same_registry w); auto);
      destruct (cleanup w1 g1) end.
    exact H'.
Qed.

Lemma wf_messages_endpoint w qp body : wf w -> wf (fst (messages_endpoint w qp body)).
Proof.
  intros H. unfold messages_endpoint.
  destruct (qp_get "session_id" qp) as [s|]; [|exact H].
  destruct (negb (falsy (Some s))); [|exact H].
  destruct (assoc s (active_connections w)); [apply wf_put|]; exact H.
Qed.

Lemma in_flat_map_refs_bound (d : list (string * conn)) n r :
  Forall (fun e => (read_queue (snd e) < n)%nat /\ (write_queue (snd e) < n)%nat) d ->
  In r (flat_map (fun e => queue_refs (snd e)) d) -> (r < n)%nat.
Proof.
  intros Hf Hin. apply in_flat_map in Hin. destruct Hin as [e [He Hr]].
  rewrite Forall_forall in Hf. destruct (Hf e He) as [Ha Hb].
  unfold queue_refs in Hr. simpl in Hr. destruct Hr as [<-|[<-|[]]]; assumption.
Qed.

Lemma wf_sse_endpoint w client_host now sid :
  wf w -> wf (fst (sse_endpoint w client_host now sid)).
Proof.
  unfold wf, sse_endpoint. simpl. intros [H1 [H2 H3]].
  set (c := Conn (next_queue w) (S (next_queue w)) now client_host).
  split; [apply set_item_nodup; exact H1|].
  assert (Hb : Forall (fun e => (read_queue (snd e) < S (S (next_queue w)))%nat
                                /\ (write_queue (snd e) < S (S (next_queue w)))%nat)
                 (active_connections w)).
  { eapply Forall_impl; [|exact H3]. simpl. intros e [Ha Hb]. lia. }
  destruct (set_item_split sid c (active_connections w)) as [E|[l1 [x [l2 [E1 E2]]]]];
    [rewrite E|rewrite E2].
  - split.
    + rewrite flat_map_app. simpl. rewrite <- (app_nil_r (flat_map _ _)) at 1.
      rewrite <- app_assoc.
      apply nodup_insert2; rewrite ?app_nil_r; [exact H2| | |lia];
        intros Hin; pose proof (in_flat_map_refs_bound _ _ _ H3 Hin); lia.
    + apply Forall_app. split; [exact Hb|]. constructor; [simpl; lia|constructor].
  - rewrite E1 in H2, H3, Hb. split.
    + rewrite flat_map_app in *. simpl in *.
      pose proof (nodup_remove_block _ (queue_refs (snd x)) _ H2) as H2'.
      assert (Hl : forall r, In r (app (flat_map (fun e => queue_refs (snd e)) l1)
                                      (flat_map (fun e => queue_refs (snd e)) l2)) ->
                             (r < next_queue w)%nat).
      { intros r Hin. apply (in_flat_map_refs_bound (app l1 (x :: l2))); [exact H3|].
        rewrite flat_map_app. apply in_app_or in Hin. apply in_or_app.
        destruct Hin as [Hin|Hin]; [left; exact Hin|right; simpl; right; right; exact Hin]. }
      apply nodup_insert2; [exact H2'| | |lia]; intros Hin; pose proof (Hl _ Hin); lia.
    + apply Forall_app in Hb. destruct Hb as [Hb1 Hb2]. inversion Hb2; subst.
      apply Forall_app. split; [exact Hb1|]. constructor; [simpl; lia|assumption].
Qed.

(** X16: the registry invariant of render_server.py (distinct session
    ids; every entry's two queues distinct from each other and from all
    other entries' queues, and below the next fresh reference) holds from
    the empty registry on, and is kept by opening a stream, by every POST
    and by every event of an open stream. *)
Theorem wf_invariant :
  wf empty_world /\
  (forall w client_host now sid, wf w -> wf (fst (sse_endpoint w client_host now sid))) /\
  (forall w qp body, wf w -> wf (fst (messages_endpoint w qp body))) /\
  (forall w g e, wf w -> wf (fst (fst (step w g e)))).
Proof.
  split; [unfold wf; simpl; auto using NoDup_nil|].
  split; [apply wf_sse_endpoint|]. split; [apply wf_messages_endpoint|].
  intros w g e H. destruct e as [| |ts| |qp body]; cbn -[cleanup loop_get put messages_endpoint].
  - unfold gen_next. destruct (g_pc g); cbn -[loop_get].
    + exact H.
    + pose proof (wf_loop_get w (set_tasks g Running Running) H) as H'.
      destruct (loop_get w (set_tasks g Running Running)) as [[w' g'] r]. exact H'.
    + pose proof (wf_loop_get w g H) as H'.
      destruct (loop_get w g) as [[w' g'] r]. exact H'.
    + exact H.
  - unfold gen_throw. destruct (g_pc g); cbn -[cleanup]; try exact H.
    pose proof (wf_cleanup w g H) as H'. destruct (cleanup w g) as [w' g']. exact H'.
  - unfold ping_tick. destruct (g_ping_task g); simpl; try exact H.
    destruct (assoc (g_session_id g) (active_connections w)); simpl; [apply wf_put|]; exact H.
  - unfold mcp_done. destruct (g_mcp_task g); simpl; try exact H; apply wf_put; exact H.
  - pose proof (wf_messages_endpoint w qp body H) as H'.
    destruct (messages_endpoint w qp body) as [w' st]. exact H'.
Qed.

Lemma refs_disjoint (d : list (string * conn)) s s' c c' :
  NoDup (flat_map (fun e => queue_refs (snd e)) d) ->
  assoc s d = Some c -> assoc s' d = Some c' -> s' <> s ->
  ~ In (read_queue c) (queue_refs c').
Proof.
  induction d as [|[k0 v0] d IH]; simpl; [discriminate|].
  intros Hn Hc Hc' Hne.
  assert (Hin : forall k v, assoc k d = Some v -> forall r, In r (queue_refs v) ->
                  In r (flat_map (fun e => queue_refs (snd e)) d)).
  { intros k v Hk r Hr. clear -Hk Hr. induction d as [|[k1 v1] d IH]; simpl in Hk; [discriminate|].
    cbn [flat_map]. apply in_or_app. destruct (String.eqb k k1); [injection Hk as <-; left; exact Hr|right; auto]. }
  destruct (String.eqb_spec s k0) as [->|Hs]; destruct (String.eqb_spec s' k0) as [->|Hs'].
  - congruence.
  - injection Hc as <-. intros Hr. unfold queue_refs at 1 in Hn. simpl in Hn.
    inversion Hn as [|? ? Hn1 Hn2]; subst.
    pose proof (Hin _ _ Hc' _ Hr) as Hr'. apply Hn1. right. exact Hr'.
  - injection Hc' as <-. intros Hr. unfold queue_refs at 1 in Hn. simpl in Hn.
    pose proof (Hin _ _ Hc (read_queue c) (or_introl eq_refl)) as Hr'.
    inversion Hn as [|? ? Hn1 Hn2]; subst. inversion Hn2 as [|? ? Hn3 Hn4]; subst.
    unfold queue_refs in Hr. simpl in Hr. destruct Hr as [E|[E|[]]].
    + apply Hn1. right. rewrite E. exact Hr'.
    + apply Hn3. rewrite E. exact Hr'.
  - inversion Hn as [|? ? _ Hn2]; subst. inversion Hn2 as [|? ? _ Hn3]; subst.
    apply (IH Hn3 Hc Hc' Hne).
Qed.

(** X17: in a registry satisfying the invariant, POSTs for one session
    leave both queues of every other registered session untouched:
    sessions of render_server.py are isolated from each other. *)
Theorem post_all_isolated w qp bodies s c s' c' :
  wf w ->
  qp_get "session_id" qp = Some s -> s <> "" ->
  assoc s (active_connections w) = Some c ->
  assoc s' (active_connections w) = Some c' -> s' <> s ->
  let w' := fst (post_all w qp bodies) in
  queues w' (read_queue c') = queues w (read_queue c') /\
  queues w' (write_queue c') = queues w (write_queue c') /\
  assoc s' (active_connections w') = Some c'.
Proof.
  intros [_ [Hn _]] Hq Hs Hc Hc' Hne. cbv zeta.
  pose proof (post_all_registered w qp bodies s c Hq Hs Hc) as H.
  pose proof (refs_disjoint _ s s' c c' Hn Hc Hc' Hne) as Hd.
  unfold queue_refs in Hd. simpl in Hd.
  destruct (post_all w qp bodies) as [w' sts]. destruct H as [_ [H2 [_ [_ H5]]]]. simpl.
  split; [apply H5; intros E; apply Hd; left; exact E|].
  split; [apply H5; intros E; apply Hd; right; left; exact E|].
  rewrite H2. exact Hc'.
Qed.

Definition two_stream_world : world :=
  fst (sse_endpoint one_stream_world "10.0.0.2" "2025-01-01T00:01:00" "s-2").

Lemma wf_invariant_witness : wf two_stream_world.
Proof.
  destruct wf_invariant as [H0 [Hs _]]. unfold two_stream_world, one_stream_world.
  apply Hs. apply Hs. exact H0.
Defined.

Lemma post_all_isolated_witness :
  queues (fst (post_all two_stream_world [("session_id", "s-1")] ["m1"; "m2"])) 2 = [] /\
  queues (fst (post_all two_stream_world [("session_id", "s-1")] ["m1"; "m2"])) 3 = [].
Proof.
  assert (Hwf : wf two_stream_world).
  { unfold wf. simpl. split; [|split].
    - constructor; [simpl; intros [E|[]]; discriminate|constructor; [simpl; auto|constructor]].
    - repeat constructor; simpl; intuition discriminate.
    - repeat constructor; simpl; lia. }
  destruct (post_all_isolated two_stream_world [("session_id", "s-1")] ["m1"; "m2"]
              "s-1" (Conn 0 1 "2025-01-01T00:00:00" "10.0.0.1")
              "s-2" (Conn 2 3 "2025-01-01T00:01:00" "10.0.0.2")
              Hwf eq_refl ltac:(discriminate) eq_refl eq_refl ltac:(discriminate)) as [H1 [H2 _]].
  split; [exact H1|exact H2].
Defined.

(** ** Forwarding on the stream of render_server.py *)

Lemma set_pc_same g : set_pc g (g_pc g) = g.
Proof. destruct g; reflexivity. Qed.

Lemma run_app w g es1 es2 :
  run w g (app es1 es2)
  = let '(w1, g1, fs1) := run w g es1 in
    let '(w2, g2, fs2) := run w1 g1 es2 in (w2, g2, app fs1 fs2).
Proof.
  revert w g. induction es1 as [|e es1 IH]; intros w g; simpl.
  - destruct (run w g es2) as [[w2 g2] fs2]. reflexivity.
  - destruct (step w g e) as [[w1 g1] o]. rewrite IH.
    destruct (run w1 g1 es1) as [[w3 g3] fs3]. destruct (run w3 g3 es2) as [[w4 g4] fs4].
    destruct o; reflexivity.
Qed.

Lemma repeat_S_app {T} (x : T) n : repeat x (S n) = app (repeat x n) [x].
Proof. induction n as [|n IH]; simpl; [reflexivity|]. simpl in IH. rewrite IH. reflexivity. Qed.

Lemma drain_messages w g ms rest :
  g_pc g = InLoop -> queues w (g_write_queue g) = app (map Some ms) rest ->
  let '(w', g', frames) := run w g (repeat Next (List.length ms)) in
  frames = map data_frame ms /\ g' = g /\
  queues w' (g_write_queue g) = rest /\
  active_connections w' = active_connections w /\ next_queue w' = next_queue w /\
  (forall r, r <> g_write_queue g -> queues w' r = queues w r).
Proof.
  intros Hpc. revert w. induction ms as [|m ms IH]; intros w Hq; simpl.
  - simpl in Hq. repeat split; auto.
  - unfold gen_next. rewrite Hpc. unfold loop_get. rewrite Hq. simpl.
    rewrite <- Hpc, set_pc_same.
    set (w1 := {| active_connections := active_connections w;
                  queues := set_queue (queues w) (g_write_queue g) (app (map Some ms) rest);
                  next_queue := next_queue w |}).
    assert (Hq1 : queues w1 (g_write_queue g) = app (map Some ms) rest)
      by (simpl; unfold set_queue; rewrite Nat.eqb_refl; reflexivity).
    specialize (IH w1 Hq1). destruct (run w1 g (repeat Next (List.length ms))) as [[w2 g2] fs].
    destruct IH as [H1 [H2 [H3 [H4 [H5 H6]]]]].
    split; [rewrite H1; reflexivity|]. split; [exact H2|]. split; [exact H3|].
    split; [exact H4|]. split; [exact H5|].
    intros r Hr. rewrite (H6 r Hr). simpl. unfold set_queue.
    destruct (Nat.eqb_spec (g_write_queue g) r); [congruence|reflexivity].
Qed.

Lemma drain_then_close w g ms rest :
  g_pc g = InLoop -> queues w (g_write_queue g) = app (map Some ms) (None :: rest) ->
  NoDup (map fst (active_connections w)) ->
  let '(w', g', frames) := run w g (repeat Next (S (List.length ms))) in
  frames = map data_frame ms /\
  g' = set_pc (set_tasks g (cancel (g_mcp_task g)) (cancel (g_ping_task g))) GenClosed /\
  queues w' (g_write_queue g) = rest /\
  assoc (g_session_id g) (active_connections w') = None /\
  (forall k, k <> g_session_id g -> assoc k (active_connections w') = assoc k (active_connections w)) /\
  NoDup (map fst (active_connections w')).
Proof.
  intros Hpc Hq Hd. rewrite repeat_S_app, run_app.
  pose proof (drain_messages w g ms (None :: rest) Hpc Hq) as H.
  destruct (run w g (repeat Next (List.length ms))) as [[w1 g1] fs1].
  destruct H as [H1 [-> [H3 [H4 [H5 H6]]]]]. subst fs1.
  cbn [run step]. unfold gen_next. rewrite Hpc. unfold loop_get. rewrite H3.
  cbn -[del_item]. unfold cleanup. cbn -[del_item mem].
  rewrite app_nil_r. split; [reflexivity|]. split; [reflexivity|].
  rewrite <- H4 in Hd.
  unfold mem. destruct (assoc (g_session_id g) (active_connections w1)) eqn:Ea; simpl.
  - destruct (del_item_nodup (g_session_id g) _ Hd) as [N1 N2].
    split; [unfold set_queue; rewrite Nat.eqb_refl; reflexivity|].
    split; [exact N2|]. split; [|exact N1].
    intros k Hk. rewrite assoc_del_item_other by exact Hk. rewrite H4. reflexivity.
  - split; [unfold set_queue; rewrite Nat.eqb_refl; reflexivity|].
    split; [exact Ea|]. split; [|exact Hd]. intros k Hk. rewrite H4. reflexivity.
Qed.

(** X18: while the stream of render_server.py is in its forwarding loop,
    the messages on its write queue are delivered as [data:] frames, one
    per request for the next chunk, in queue order, and nothing else on
    the stream or the registry changes. *)
Theorem stream_forwards_in_order w g ms rest :
  g_pc g = InLoop -> queues w (g_write_queue g) = app (map Some ms) rest ->
  let '(w', g', frames) := run w g (repeat Next (List.length ms)) in
  frames = map data_frame ms /\ g' = g /\
  queues w' (g_write_queue g) = rest /\
  active_connections w' = active_connections w.
Proof.
  intros Hpc Hq. pose proof (drain_messages w g ms rest Hpc Hq) as H.
  destruct (run w g (repeat Next (List.length ms))) as [[w' g'] fs]. tauto.
Qed.

Definition looping_stream : gen := Gen "s-1" 0 1 InLoop Running Running.

Definition world_with_output : world :=
  {| active_connections := [("s-1", Conn 0 1 "2025-01-01T00:00:00" "10.0.0.1")];
     queues := fun r => if Nat.eqb r 1 then [Some "m1"; Some "m2"; None] else [];
     next_queue := 2 |}.

Lemma stream_forwards_in_order_witness :
  snd (run world_with_output looping_stream [Next; Next]) = [data_frame "m1"; data_frame "m2"].
Proof.
  pose proof (stream_forwards_in_order world_with_output looping_stream ["m1"; "m2"] [None]
                eq_refl eq_refl) as H.
  simpl repeat in H. destruct (run world_with_output looping_stream [Next; Next]) as [[w' g'] fs].
  destruct H as [H _]. exact H.
Defined.

(** X19: when the [None] close signal reaches the front of the write
    queue, the stream of render_server.py first delivers the messages
    queued before it, then stops: the generator is closed, its running
    tasks are cancelled, its session is no longer registered (other
    sessions keep their entries), and no frame follows, whatever happens
    afterwards. *)
Theorem stream_closes_on_sentinel w g ms rest :
  g_pc g = InLoop -> queues w (g_write_queue g) = app (map Some ms) (None :: rest) ->
  NoDup (map fst (active_connections w)) ->
  let '(w', g', frames) := run w g (repeat Next (S (List.length ms))) in
  frames = map data_frame ms /\
  g_pc g' = GenClosed /\ g_mcp_task g' <> Running /\ g_ping_task g' <> Running /\
  assoc (g_session_id g) (active_connections w') = None /\
  (forall k, k <> g_session_id g -> assoc k (active_connections w') = assoc k (active_connections w)) /\
  (forall es, snd (run w' g' es) = []).
Proof.
  intros Hpc Hq Hd. pose proof (drain_then_close w g ms rest Hpc Hq Hd) as H.
  destruct (run w g (repeat Next (S (List.length ms)))) as [[w' g'] fs].
  destruct H as [H1 [-> [_ [H4 [H5 _]]]]].
  split; [exact H1|]. split; [reflexivity|].
  split; [simpl; destruct (g_mcp_task g); discriminate|].
  split; [simpl; destruct (g_ping_task g); discriminate|].
  split; [exact H4|]. split; [exact H5|].
  intros es. pose proof (run_closed w' (set_pc (set_tasks g (cancel (g_mcp_task g))
                                                  (cancel (g_ping_task g))) GenClosed) es eq_refl) as Hc.
  destruct (run _ _ es) as [[w2 g2] fs2]. exact Hc.
Qed.

Lemma stream_closes_on_sentinel_witness :
  snd (run world_with_output looping_stream [Next; Next; Next; Next; Throw; Next])
  = [data_frame "m1"; data_frame "m2"].
Proof.
  assert (Hd : NoDup (map fst (active_connections world_with_output)))
    by (simpl; constructor; [simpl; auto|constructor]).
  pose proof (stream_closes_on_sentinel world_with_output looping_stream ["m1"; "m2"] []
                eq_refl eq_refl Hd) as H.
  change [Next; Next; Next; Next; Throw; Next] with (app [Next; Next; Next] [Next; Throw; Next]).
  rewrite (run_app world_with_output looping_stream [Next; Next; Next] [Next; Throw; Next]).
  simpl repeat in H. destruct (run world_with_output looping_stream [Next; Next; Next]) as [[w' g'] fs].
  destruct H as [H1 [_ [_ [_ [_ [_ H7]]]]]].
  specialize (H7 [Next; Throw; Next]).
  destruct (run w' g' [Next; Throw; Next]) as [[w2 g2] fs2]. simpl in H7 |- *.
  rewrite H1, H7. reflexivity.
Defined.

(** X20: when [run_mcp_server] of render_server.py ends while its stream
    is forwarding, the [None] its [finally] enqueues comes after every
    message already queued: the stream delivers all of them, then
    closes and unregisters its session. *)
Theorem stream_drains_after_mcp_done w g ms :
  g_pc g = InLoop -> g_mcp_task g = Running ->
  queues w (g_write_queue g) = map Some ms ->
  NoDup (map fst (active_connections w)) ->
  let '(w', g', frames) := run w g (McpDone :: repeat Next (S (List.length ms))) in
  frames = map data_frame ms /\ g_pc g' = GenClosed /\ g_mcp_task g' = Finished /\
  assoc (g_session_id g) (active_connections w') = None.
Proof.
  intros Hpc Hm Hq Hd. cbn [run step]. unfold mcp_done. rewrite Hm.
  set (g1 := set_tasks g Finished (g_ping_task g)).
  set (w1 := put w (g_write_queue g) None).
  assert (Hq1 : queues w1 (g_write_queue g1) = app (map Some ms) (None :: [])).
  { unfold w1. rewrite queues_put, Nat.eqb_refl, Hq. reflexivity. }
  pose proof (drain_then_close w1 g1 ms [] Hpc Hq1 Hd) as H.
  destruct (run w1 g1 (repeat Next (S (List.length ms)))) as [[w' g'] fs].
  destruct H as [H1 [-> [_ [H4 _]]]].
  split; [exact H1|]. split; [reflexivity|]. split; [reflexivity|exact H4].
Qed.

Definition world_before_done : world :=
  {| active_connections := [("s-1", Conn 0 1 "2025-01-01T00:00:00" "10.0.0.1")];
     queues := fun r => if Nat.eqb r 1 then [Some "m1"] else [];
     next_queue := 2 |}.

Lemma stream_drains_after_mcp_done_witness :
  snd (run world_before_done looping_stream [McpDone; Next; Next]) = [data_frame "m1"].
Proof.
  assert (Hd : NoDup (map fst (active_connections world_before_done)))
    by (simpl; constructor; [simpl; auto|constructor]).
  pose proof (stream_drains_after_mcp_done world_before_done looping_stream ["m1"]
                eq_refl eq_refl eq_refl Hd) as H.
  simpl repeat in H. destruct (run world_before_done looping_stream [McpDone; Next; Next]) as [[w' g'] fs].
  destruct H as [H _]. exact H.
Defined.

(** ** The get_related_entities tool of server_sse.py *)

Lemma bind_returns_from {A B} (Q : A -> Prop) (P : B -> Prop) (m : M A) (k : A -> M B) :
  returns Q m -> (forall a, Q a -> returns P (k a)) -> returns P (bind m k).
Proof.
  intros Hm Hk log v. unfold bind.
  destruct (m log) as [[a|e] l] eqn:E; [|discriminate].
  apply Hk. apply (Hm log). rewrite E. reflexivity.
Qed.

Lemma execute_sparql_first_request b dumps q log :
  exists s rest, execute_sparql b dumps q log = (Ok s, app log (sparql_wrapper_request q :: rest)).
Proof.
  unfold execute_sparql. simpl. unfold catch, bind, http_get. simpl.
  fold (sparql_wrapper_request q).
  destruct (b (List.length log) (sparql_wrapper_request q)) as [m|results]; simpl.
  - destruct (execute_sparql_with_requests_shape b dumps q
                (app log [sparql_wrapper_request q])) as [s Hs].
    rewrite Hs, <- app_assoc. eexists. eexists. reflexivity.
  - pose proof (dump_bindings_pure dumps results (app log [sparql_wrapper_request q])) as Hp.
    destruct (dump_bindings dumps results _) as [[s|e] l]; simpl in Hp; subst l.
    + exists s, []. reflexivity.
    + destruct (execute_sparql_with_requests_shape b dumps q
                  (app log [sparql_wrapper_request q])) as [s Hs].
      rewrite Hs, <- app_assoc. eexists. eexists. reflexivity.
Qed.

Lemma get_related_entities_sparql b dumps entity_id rp limit q log :
  q = (if negb (falsy rp) then
         ServerSse.related_by_query entity_id (match rp with Some p => p | None => "" end)
           (ServerSse.py_int_str limit)
       else ServerSse.any_relation_query entity_id (ServerSse.py_int_str limit)) ->
  (exists s rest, ServerSse.get_related_entities b dumps entity_id rp limit log
                  = (Ok s, app log (sparql_wrapper_request q :: rest))) /\
  returns (fun s => exists j, s = dumps j) (ServerSse.get_related_entities b dumps entity_id rp limit).
Proof.
  intros ->. split.
  - unfold ServerSse.get_related_entities. cbv zeta.
    destruct (execute_sparql_first_request b dumps
      (if negb (falsy rp) then
         ServerSse.related_by_query entity_id (match rp with Some p => p | None => "" end)
           (ServerSse.py_int_str limit)
       else ServerSse.any_relation_query entity_id (ServerSse.py_int_str limit)) log)
      as [s [rest Hs]].
    exists s, rest. rewrite (bind_ok _ _ _ _ _ Hs). reflexivity.
  - unfold ServerSse.get_related_entities. cbv zeta.
    apply (bind_returns_from (fun s => exists j, s = dumps j)).
    + apply execute_sparql_returns_dumps.
    + intros s Hs. apply ret_returns. exact Hs.
Qed.

(** X21: [get_related_entities] of server_sse.py never raises and always
    answers a serialised JSON value. A non-empty relation property sends,
    as its first request, the query for that property
    ([wd:<id> wdt:<property> ?related]); without one, or with the empty
    string, it sends the query over all direct claims. Both queries end
    in [LIMIT str(limit)]. *)
Theorem get_related_entities_outcomes b dumps entity_id rp limit log :
  (exists s, fst (ServerSse.get_related_entities b dumps entity_id rp limit log) = Ok s /\
             exists j, s = dumps j) /\
  (forall p, rp = Some p -> p <> "" ->
     exists rest, snd (ServerSse.get_related_entities b dumps entity_id rp limit log)
     = app log (sparql_wrapper_request
                  (ServerSse.related_by_query entity_id p (ServerSse.py_int_str limit)) :: rest)) /\
  (rp = None \/ rp = Some "" ->
     exists rest, snd (ServerSse.get_related_entities b dumps entity_id rp limit log)
     = app log (sparql_wrapper_request
                  (ServerSse.any_relation_query entity_id (ServerSse.py_int_str limit)) :: rest)).
Proof.
  destruct (get_related_entities_sparql b dumps entity_id rp limit _ log eq_refl)
    as [[s [rest Hs]] Hr].
  split; [|split].
  - exists s. rewrite Hs. split; [reflexivity|].
    apply (Hr log s). rewrite Hs. reflexivity.
  - intros p -> Hp. exists rest. rewrite Hs. simpl.
    rewrite (proj2 (String.eqb_neq p "") Hp). reflexivity.
  - intros Hrp. exists rest. rewrite Hs.
    destruct Hrp as [->| ->]; reflexivity.
Qed.

Lemma get_related_entities_outcomes_witness :
  exists rest,
    snd (ServerSse.get_related_entities einstein_sparql_backend (fun _ => "[...]") "Q937"
           (Some "P31") 5 [])
    = sparql_wrapper_request (ServerSse.related_by_query "Q937" "P31" "5") :: rest.
Proof.
  exact (proj1 (proj2 (get_related_entities_outcomes einstein_sparql_backend (fun _ => "[...]")
                         "Q937" (Some "P31") 5 [])) "P31" eq_refl ltac:(discriminate)).
Defined.

(** ** The keep-alive under the asyncio schedule of the two bridges *)

Lemma assoc_some_in {A} k (d : list (string * A)) v : assoc k d = Some v -> In (k, v) d.
Proof.
  induction d as [|[k' v'] d IH]; simpl; [discriminate|].
  destruct (String.eqb_spec k k') as [->|_]; [intros [= ->]; left; reflexivity|].
  intros H. right. exact (IH H).
Qed.

Lemma in_set_item {A} k (v : A) d p : In p (set_item k v d) -> p = (k, v) \/ In p d.
Proof.
  induction d as [|[k' v'] d IH]; simpl; [intros [<-|[]]; left; reflexivity|].
  destruct (String.eqb k k'); simpl.
  - intros [<-|H]; [left; reflexivity|right; right; exact H].
  - intros [<-|H]; [right; left; reflexivity|]. destruct (IH H) as [->|H']; auto.
Qed.

(** A stream of render_server.py whose tasks are not created yet, whose
    write queue is empty and is nobody's read queue. *)
Definition render_quiet (w : world) (g : gen) : Prop :=
  g_mcp_task g = NotCreated /\ g_ping_task g = NotCreated /\
  queues w (g_write_queue g) = [] /\
  (forall k c, In (k, c) (active_connections w) -> read_queue c <> g_write_queue g).

Lemma render_quiet_post w g qp body :
  render_quiet w g -> render_quiet (fst (messages_endpoint w qp body)) g.
Proof.
  intros Hq. unfold messages_endpoint.
  destruct (qp_get "session_id" qp) as [s|]; [|exact Hq].
  destruct (negb (falsy (Some s))); [|exact Hq].
  destruct (assoc s (active_connections w)) as [c|] eqn:E; [|exact Hq].
  destruct Hq as [H1 [H2 [H3 H4]]]. pose proof (H4 _ _ (assoc_some_in _ _ _ E)) as Hne.
  split; [exact H1|]. split; [exact H2|]. split; [|exact H4].
  simpl. unfold set_queue. apply Nat.eqb_neq in Hne. rewrite Hne. exact H3.
Qed.

Lemma render_run_closed w g es :
  g_pc g = GenClosed -> let '(_, _, frames) := McpTask.render_run w g es in frames = [].
Proof.
  revert w g. induction es as [|e es IH]; intros w g Hpc; simpl; [reflexivity|].
  assert (let '(w1, g1, o) := McpTask.render_step w g e in g_pc g1 = GenClosed /\ o = None) as Hs.
  { destruct e as [| |ts| |qp body]; simpl.
    - unfold McpTask.render_gen_next, gen_next. rewrite Hpc. auto.
    - unfold gen_throw. rewrite Hpc. auto.
    - unfold ping_tick. destruct (g_ping_task g); auto.
      destruct (assoc (g_session_id g) (active_connections w)); auto.
    - unfold mcp_done. destruct (g_mcp_task g); auto.
    - destruct (messages_endpoint w qp body); auto. }
  destruct (McpTask.render_step w g e) as [[w1 g1] o]. destruct Hs as [Hpc1 ->].
  specialize (IH w1 g1 Hpc1). destruct (McpTask.render_run w1 g1 es) as [[w2 g2] fs]. exact IH.
Qed.

Lemma render_run_at_endpoint w g es :
  g_pc g = AtEndpointYield -> render_quiet w g ->
  let '(_, _, frames) := McpTask.render_run w g es in frames = [].
Proof.
  revert w g. induction es as [|e es IH]; intros w g Hpc Hq; simpl; [reflexivity|].
  assert ((let '(w1, g1, o) := McpTask.render_step w g e in g_pc g1 = GenClosed /\ o = None) \/
          (let '(w1, g1, o) := McpTask.render_step w g e in
           g_pc g1 = AtEndpointYield /\ render_quiet w1 g1 /\ o = None)) as Hs.
  { destruct Hq as [Hm [Hp [Hw Hr]]].
    destruct e as [| |ts| |qp body]; simpl.
    - left. unfold McpTask.render_gen_next. rewrite Hpc. simpl.
      unfold loop_get. simpl. unfold set_queue. rewrite Nat.eqb_refl, Hw. simpl.
      auto.
    - left. unfold gen_throw. rewrite Hpc. auto.
    - right. unfold ping_tick. rewrite Hp. auto.
      repeat split; assumption.
    - right. unfold mcp_done. rewrite Hm. repeat split; assumption.
    - right. pose proof (render_quiet_post w g qp body (conj Hm (conj Hp (conj Hw Hr)))) as Hq'.
      destruct (messages_endpoint w qp body) as [w' st]. auto. }
  destruct Hs as [Hs|Hs].
  - destruct (McpTask.render_step w g e) as [[w1 g1] o]. destruct Hs as [Hpc1 ->].
    pose proof (render_run_closed w1 g1 es Hpc1) as H.
    destruct (McpTask.render_run w1 g1 es) as [[w2 g2] fs]. exact H.
  - destruct (McpTask.render_step w g e) as [[w1 g1] o]. destruct Hs as [Hpc1 [Hq1 ->]].
    specialize (IH w1 g1 Hpc1 Hq1). destruct (McpTask.render_run w1 g1 es) as [[w2 g2] fs]. exact IH.
Qed.

Lemma render_run_created w g es :
  g_pc g = GenCreated -> render_quiet w g ->
  let '(_, _, frames) := McpTask.render_run w g es in
  frames = [] \/ frames = [endpoint_frame (g_session_id g)].
Proof.
  revert w g. induction es as [|e es IH]; intros w g Hpc Hq; simpl; [left; reflexivity|].
  destruct e as [| |ts| |qp body]; simpl.
  - unfold McpTask.render_gen_next, gen_next. rewrite Hpc. simpl.
    assert (Hq' : render_quiet w (set_pc g AtEndpointYield)) by exact Hq.
    pose proof (render_run_at_endpoint w (set_pc g AtEndpointYield) es eq_refl Hq') as H.
    destruct (McpTask.render_run w (set_pc g AtEndpointYield) es) as [[w2 g2] fs].
    right. rewrite H. reflexivity.
  - unfold gen_throw. rewrite Hpc.
    pose proof (render_run_closed w (set_pc g GenClosed) es eq_refl) as H.
    destruct (McpTask.render_run w (set_pc g GenClosed) es) as [[w2 g2] fs]. left. exact H.
  - destruct Hq as [Hm [Hp [Hw Hr]]]. unfold ping_tick. rewrite Hp.
    specialize (IH w g Hpc (conj Hm (conj Hp (conj Hw Hr)))).
    destruct (McpTask.render_run w g es) as [[w2 g2] fs]. exact IH.
  - destruct Hq as [Hm [Hp [Hw Hr]]]. unfold mcp_done. rewrite Hm.
    specialize (IH w g Hpc (conj Hm (conj Hp (conj Hw Hr)))).
    destruct (McpTask.render_run w g es) as [[w2 g2] fs]. exact IH.
  - pose proof (render_quiet_post w g qp body Hq) as Hq'.
    destruct (messages_endpoint w qp body) as [w' st].
    specialize (IH w' g Hpc Hq'). destruct (McpTask.render_run w' g es) as [[w2 g2] fs]. exact IH.
Qed.

Lemma render_quiet_sse_endpoint w client_host now sid :
  wf w -> let '(w0, g0) := sse_endpoint w client_host now sid in
          g_pc g0 = GenCreated /\ g_session_id g0 = sid /\ render_quiet w0 g0.
Proof.
  intros [_ [_ Hb]]. unfold sse_endpoint. simpl.
  split; [reflexivity|]. split; [reflexivity|].
  split; [reflexivity|]. split; [reflexivity|].
  split; [unfold set_queue; cbn; rewrite Nat.eqb_refl; reflexivity|].
  intros k c Hin. apply in_set_item in Hin. destruct Hin as [Hin|Hin].
  - injection Hin as _ ->. simpl. lia.
  - rewrite Forall_forall in Hb. destruct (Hb _ Hin) as [Hr _]. simpl in *. lia.
Qed.

(** The same for minimal_server.py. *)
Definition minimal_quiet (w : MinimalServer.world) (g : MinimalServer.gen) : Prop :=
  MinimalServer.g_mcp_task g = NotCreated /\ MinimalServer.g_ping_task g = NotCreated /\
  MinimalServer.queues w (MinimalServer.g_write_queue g) = [] /\
  (forall k c, In (k, c) (MinimalServer.active_connections w) ->
               MinimalServer.read_queue c <> MinimalServer.g_write_queue g).

(** Before [event_generator] first runs: every entry's read queue is a
    reference below the next fresh one. *)
Definition minimal_fresh (w : MinimalServer.world) : Prop :=
  forall k c, In (k, c) (MinimalServer.active_connections w) ->
              (MinimalServer.read_queue c < MinimalServer.next_queue w)%nat.

Lemma minimal_post_registry w qp body :
  MinimalServer.active_connections (fst (MinimalServer.messages_endpoint w qp body))
    = MinimalServer.active_connections w /\
  MinimalServer.next_queue (fst (MinimalServer.messages_endpoint w qp body))
    = MinimalServer.next_queue w.
Proof.
  unfold MinimalServer.messages_endpoint.
  destruct (qp_get "session_id" qp) as [s|]; [|auto].
  destruct (negb (falsy (Some s))); [|auto].
  destruct (assoc s (MinimalServer.active_connections w)); auto.
Qed.

Lemma minimal_quiet_post w g qp body :
  minimal_quiet w g -> minimal_quiet (fst (MinimalServer.messages_endpoint w qp body)) g.
Proof.
  intros Hq. unfold MinimalServer.messages_endpoint.
  destruct (qp_get "session_id" qp) as [s|]; [|exact Hq].
  destruct (negb (falsy (Some s))); [|exact Hq].
  destruct (assoc s (MinimalServer.active_connections w)) as [c|] eqn:E; [|exact Hq].
  destruct Hq as [H1 [H2 [H3 H4]]]. pose proof (H4 _ _ (assoc_some_in _ _ _ E)) as Hne.
  split; [exact H1|]. split; [exact H2|]. split; [|exact H4].
  simpl. unfold set_queue. apply Nat.eqb_neq in Hne. rewrite Hne. exact H3.
Qed.

Lemma minimal_run_closed w g es :
  MinimalServer.g_pc g = GenClosed ->
  let '(_, _, frames) := McpTask.minimal_run w g es in frames = [].
Proof.
  revert w g. induction es as [|e es IH]; intros w g Hpc; simpl; [reflexivity|].
  assert (let '(w1, g1, o) := McpTask.minimal_step w g e in
          MinimalServer.g_pc g1 = GenClosed /\ o = None) as Hs.
  { destruct e as [| |ts| |qp body]; simpl.
    - unfold McpTask.minimal_gen_next, MinimalServer.gen_next. rewrite Hpc. auto.
    - unfold MinimalServer.gen_throw. rewrite Hpc. auto.
    - unfold MinimalServer.ping_tick. destruct (MinimalServer.g_ping_task g); auto.
      destruct (assoc (MinimalServer.g_session_id g) (MinimalServer.active_connections w)); auto.
    - unfold MinimalServer.mcp_done. destruct (MinimalServer.g_mcp_task g); auto.
    - destruct (MinimalServer.messages_endpoint w qp body); auto. }
  destruct (McpTask.minimal_step w g e) as [[w1 g1] o]. destruct Hs as [Hpc1 ->].
  specialize (IH w1 g1 Hpc1). destruct (McpTask.minimal_run w1 g1 es) as [[w2 g2] fs]. exact IH.
Qed.

Lemma minimal_run_at_endpoint w g es :
  MinimalServer.g_pc g = AtEndpointYield -> minimal_quiet w g ->
  let '(_, _, frames) := McpTask.minimal_run w g es in frames = [].
Proof.
  revert w g. induction es as [|e es IH]; intros w g Hpc Hq; simpl; [reflexivity|].
  assert ((let '(w1, g1, o) := McpTask.minimal_step w g e in
           MinimalServer.g_pc g1 = GenClosed /\ o = None) \/
          (let '(w1, g1, o) := McpTask.minimal_step w g e in
           MinimalServer.g_pc g1 = AtEndpointYield /\ minimal_quiet w1 g1 /\ o = None)) as Hs.
  { destruct Hq as [Hm [Hp [Hw Hr]]].
    destruct e as [| |ts| |qp body]; simpl.
    - left. unfold McpTask.minimal_gen_next. rewrite Hpc. simpl.
      unfold MinimalServer.loop_get. simpl. unfold set_queue. rewrite Nat.eqb_refl, Hw. simpl.
      auto.
    - left. unfold MinimalServer.gen_throw. rewrite Hpc. auto.
    - right. unfold MinimalServer.ping_tick. rewrite Hp. repeat split; assumption.
    - right. unfold MinimalServer.mcp_done. rewrite Hm. repeat split; assumption.
    - right. pose proof (minimal_quiet_post w g qp body (conj Hm (conj Hp (conj Hw Hr)))) as Hq'.
      destruct (MinimalServer.messages_endpoint w qp body) as [w' st]. auto. }
  destruct Hs as [Hs|Hs].
  - destruct (McpTask.minimal_step w g e) as [[w1 g1] o]. destruct Hs as [Hpc1 ->].
    pose proof (minimal_run_closed w1 g1 es Hpc1) as H.
    destruct (McpTask.minimal_run w1 g1 es) as [[w2 g2] fs]. exact H.
  - destruct (McpTask.minimal_step w g e) as [[w1 g1] o]. destruct Hs as [Hpc1 [Hq1 ->]].
    specialize (IH w1 g1 Hpc1 Hq1). destruct (McpTask.minimal_run w1 g1 es) as [[w2 g2] fs].
    exact IH.
Qed.

Lemma minimal_quiet_start w g :
  minimal_fresh w -> MinimalServer.g_mcp_task g = NotCreated ->
  MinimalServer.g_ping_task g = NotCreated ->
  let '(w1, g1, r) := MinimalServer.gen_start w g in
  MinimalServer.g_pc g1 = AtEndpointYield /\ minimal_quiet w1 g1 /\
  r = Yielded (endpoint_frame (MinimalServer.g_session_id g)).
Proof.
  intros Hb Hm Hp. unfold MinimalServer.gen_start. simpl.
  split; [reflexivity|]. split; [|reflexivity].
  split; [reflexivity|]. split; [reflexivity|].
  split; [unfold set_queue; cbn; rewrite Nat.eqb_refl; reflexivity|].
  intros k c Hin. apply in_set_item in Hin. destruct Hin as [Hin|Hin].
  - injection Hin as _ ->. simpl. lia.
  - pose proof (Hb _ _ Hin). simpl. lia.
Qed.

Lemma minimal_run_created w g es :
  MinimalServer.g_pc g = GenCreated -> minimal_fresh w ->
  MinimalServer.g_mcp_task g = NotCreated -> MinimalServer.g_ping_task g = NotCreated ->
  let '(_, _, frames) := McpTask.minimal_run w g es in
  frames = [] \/ frames = [endpoint_frame (MinimalServer.g_session_id g)].
Proof.
  revert w g. induction es as [|e es IH]; intros w g Hpc Hb Hm Hp; simpl; [left; reflexivity|].
  destruct e as [| |ts| |qp body]; simpl.
  - unfold McpTask.minimal_gen_next, MinimalServer.gen_next. rewrite Hpc.
    pose proof (minimal_quiet_start w g Hb Hm Hp) as Hs.
    destruct (MinimalServer.gen_start w g) as [[w1 g1] r]. destruct Hs as [Hpc1 [Hq1 ->]].
    pose proof (minimal_run_at_endpoint w1 g1 es Hpc1 Hq1) as H.
    destruct (McpTask.minimal_run w1 g1 es) as [[w2 g2] fs]. right. rewrite H. reflexivity.
  - unfold MinimalServer.gen_throw. rewrite Hpc.
    pose proof (minimal_run_closed w (MinimalServer.set_pc g GenClosed) es eq_refl) as H.
    destruct (McpTask.minimal_run w (MinimalServer.set_pc g GenClosed) es) as [[w2 g2] fs].
    left. exact H.
  - unfold MinimalServer.ping_tick. rewrite Hp.
    specialize (IH w g Hpc Hb Hm Hp).
    destruct (McpTask.minimal_run w g es) as [[w2 g2] fs]. exact IH.
  - unfold MinimalServer.mcp_done. rewrite Hm.
    specialize (IH w g Hpc Hb Hm Hp).
    destruct (McpTask.minimal_run w g es) as [[w2 g2] fs]. exact IH.
  - assert (Hb' : minimal_fresh (fst (MinimalServer.messages_endpoint w qp body))).
    { destruct (minimal_post_registry w qp body) as [Ea En].
      unfold minimal_fresh. rewrite Ea, En. exact Hb. }
    destruct (MinimalServer.messages_endpoint w qp body) as [w' st].
    specialize (IH w' g Hpc Hb' Hm Hp).
    destruct (McpTask.minimal_run w' g es) as [[w2 g2] fs]. exact IH.
Qed.

Lemma endpoint_frame_not_ping sid ts : endpoint_frame sid <> data_frame (ping_message ts).
Proof. unfold endpoint_frame, data_frame. simpl. discriminate. Qed.

(** C5: under the asyncio schedule, a keep-alive marker never reaches
    the client on either bridge, so none is ever delivered as a [data:]
    frame. In render_server.py and minimal_server.py, [run_mcp_server]
    fails at its first statement ([from mcp.transport.stream import ...])
    and its [finally] puts [None] on the write queue before
    [send_periodic_pings] finishes its first sleep: whatever happens to a
    freshly opened stream, it delivers its endpoint frame at most and
    then closes. The claim holds only in this vacuous sense: no marker is
    ever delivered. *)
Theorem keepalive_marker_never_delivered w mw client_host now created_at session_id es :
  wf w -> MinimalServer.wf mw ->
  (let '(w0, g0) := sse_endpoint w client_host now session_id in
   let '(_, _, frames) := McpTask.render_run w0 g0 es in
   (frames = [] \/ frames = [endpoint_frame session_id]) /\
   forall ts, ~ In (data_frame (ping_message ts)) frames) /\
  (let '(_, _, frames) :=
     McpTask.minimal_run mw (MinimalServer.sse_endpoint session_id created_at) es in
   (frames = [] \/ frames = [endpoint_frame session_id]) /\
   forall ts, ~ In (data_frame (ping_message ts)) frames).
Proof.
  intros Hw [_ [_ Hmb]].
  assert (Hnp : forall frames, (frames = [] \/ frames = [endpoint_frame session_id]) ->
                forall ts, ~ In (data_frame (ping_message ts)) frames).
  { intros frames [ -> | -> ] ts; simpl; [tauto|].
    intros [H|Hf]; [exact (endpoint_frame_not_ping session_id ts H)|destruct Hf]. }
  split.
  - pose proof (render_quiet_sse_endpoint w client_host now session_id Hw) as Hs.
    destruct (sse_endpoint w client_host now session_id) as [w0 g0].
    destruct Hs as [Hpc [Hsid Hq]].
    pose proof (render_run_created w0 g0 es Hpc Hq) as H.
    destruct (McpTask.render_run w0 g0 es) as [[w2 g2] fs]. rewrite Hsid in H.
    split; [exact H|exact (Hnp fs H)].
  - assert (Hb : minimal_fresh mw).
    { intros k c Hin. rewrite Forall_forall in Hmb. exact (proj1 (Hmb _ Hin)). }
    pose proof (minimal_run_created mw (MinimalServer.sse_endpoint session_id created_at) es
                  eq_refl Hb eq_refl eq_refl) as H.
    destruct (McpTask.minimal_run mw (MinimalServer.sse_endpoint session_id created_at) es)
      as [[w2 g2] fs].
    split; [exact H|exact (Hnp fs H)].
Qed.

Lemma keepalive_marker_never_delivered_witness :
  wf empty_world /\ MinimalServer.wf MinimalServer.empty_world /\
  (let '(w0, g0) := sse_endpoint empty_world "127.0.0.1" "2026-10-18T12:00:00" "s-1" in
   let '(_, _, frames) :=
     McpTask.render_run w0 g0 [Next; Next; PingTick "2026-10-18T12:00:10"; Next] in
   (frames = [] \/ frames = [endpoint_frame "s-1"]) /\
   forall ts, ~ In (data_frame (ping_message ts)) frames) /\
  (let '(_, _, frames) :=
     McpTask.minimal_run MinimalServer.empty_world
       (MinimalServer.sse_endpoint "s-1" "2026-10-18T12:00:00")
       [Next; Next; PingTick "2026-10-18T12:00:10"; Next] in
   (frames = [] \/ frames = [endpoint_frame "s-1"]) /\
   forall ts, ~ In (data_frame (ping_message ts)) frames).
Proof.
  assert (H1 : wf empty_world) by (split; [constructor|split; constructor]).
  assert (H2 : MinimalServer.wf MinimalServer.empty_world)
    by (split; [constructor|split; constructor]).
  split; [exact H1|]. split; [exact H2|].
  exact (keepalive_marker_never_delivered empty_world MinimalServer.empty_world
           "127.0.0.1" "2026-10-18T12:00:00" "2026-10-18T12:00:00" "s-1"
           [Next; Next; PingTick "2026-10-18T12:00:10"; Next] H1 H2).
Defined.
